(** * signalk-hts-bod: heading-to-steer (BOD) and track-hold (APB) output

    A shallow embedding of the two plugin sources:
    - [src/index.js]          the BOD-only plugin (module [HtsBod] below),
    - [src/unnamed/part_000]  the BOD + APB plugin (module [HtsBodApb]).

    Number model.  A JavaScript number is either finite or one of NaN and
    the two infinities ([number]).  Finite numbers are carried as exact
    rationals ([Q]): the plugins guard every reading and every command
    argument with [Number.isFinite], and afterwards only [+ - * / %],
    [Math.round], [Math.abs], [Math.min] and [Math.max] with non-zero
    divisors are applied, so the rounding of IEEE doubles is the only thing
    left out.  The numeric options are finite numbers, as the schema of the
    plugin declares them.  [Math.PI] is the rational value of the double
    constant.  Equality of finite numbers is [Qeq] ([==]).

    String model.  A string is a [string] of one-byte code units, the
    alphabet of NMEA 0183; [charCodeAt] is [N_of_ascii]. *)

From Stdlib Require Import ZArith NArith QArith Qround Qabs Qminmax.
From Stdlib Require Import Bool List Ascii String Lia Lqa.
Import ListNotations.

Local Open Scope Q_scope.

(** ** Numbers *)

Inductive number : Type :=
| Num (q : Q)
| NaN
| Infinity (negative : bool).

(** [Number.isFinite] *)
Definition isFinite (n : number) : bool :=
  match n with Num _ => true | _ => false end.

(** Integer part towards zero of a rational. *)
Definition Qtrunc (x : Q) : Z :=
  if Qlt_le_dec x 0 then Qceiling x else Qfloor x.

(** The [%] operator on finite numbers with a non-zero divisor: the result
    takes the sign of the dividend. *)
Definition js_rem (n d : Q) : Q := n - d * inject_Z (Qtrunc (n / d)).

(** [Math.round]: nearest integer, ties towards plus infinity. *)
Definition Math_round (x : Q) : Q := inject_Z (Qfloor (x + (1 # 2))).

(** [Math.PI] = 0x400921FB54442D18 = 884279719003555 / 2^48. *)
Definition Math_PI : Q := 884279719003555 # 281474976710656.

(** [const radToDeg = (r) => (r * 180) / Math.PI] *)
Definition radToDeg (r : Q) : Q := (r * 180) / Math_PI.

(** [const degToRad = (d) => (d * Math.PI) / 180] *)
Definition degToRad (d : Q) : Q := (d * Math_PI) / 180.

(** [const round2 = (n) => Math.round(n * 100) / 100] *)
Definition round2 (n : Q) : Q := Math_round (n * 100) / 100.

(** [function wrap360(deg)], the same text in both files:
<<
    let d = deg % 360
    if (d < 0) d += 360
    return Math.round(d * 10) / 10
>> *)
Definition wrap360 (deg : Q) : Q :=
  let d := js_rem deg 360 in
  let d := if Qlt_le_dec d 0 then d + 360 else d in
  Math_round (d * 10) / 10.

(** Equality of optional numbers up to [==]. *)
Definition oQeq (a b : option Q) : Prop :=
  match a, b with
  | Some x, Some y => x == y
  | None, None => True
  | _, _ => False
  end.

(** ** Strings *)

Local Open Scope string_scope.

Definition is_upper (c : ascii) : bool :=
  let n := N_of_ascii c in (65 <=? n)%N && (n <=? 90)%N.
Definition is_lower (c : ascii) : bool :=
  let n := N_of_ascii c in (97 <=? n)%N && (n <=? 122)%N.
Definition is_digit (c : ascii) : bool :=
  let n := N_of_ascii c in (48 <=? n)%N && (n <=? 57)%N.

Definition upper_char (c : ascii) : ascii :=
  if is_lower c then ascii_of_N (N_of_ascii c - 32) else c.

(** [String.prototype.toUpperCase] on the one-byte alphabet. *)
Fixpoint toUpperCase (s : string) : string :=
  match s with
  | EmptyString => EmptyString
  | String c r => String (upper_char c) (toUpperCase r)
  end.

Fixpoint filter_string (p : ascii -> bool) (s : string) : string :=
  match s with
  | EmptyString => EmptyString
  | String c r => if p c then String c (filter_string p r) else filter_string p r
  end.

Fixpoint forall_string (p : ascii -> bool) (s : string) : bool :=
  match s with
  | EmptyString => true
  | String c r => p c && forall_string p r
  end.

(** [s.replace(/[^A-Z0-9]/g, '')] *)
Definition strip_non_A_Z_0_9 (s : string) : string :=
  filter_string (fun c => is_upper c || is_digit c) s.

Fixpoint repeat_char (c : ascii) (n : nat) : string :=
  match n with
  | O => EmptyString
  | S k => String c (repeat_char c k)
  end.

(** [s.padStart(n, c)] with a one-character filler. *)
Definition padStart (n : nat) (c : ascii) (s : string) : string :=
  repeat_char c (n - String.length s) ++ s.

Definition digit_char (d : N) : ascii := ascii_of_N (48 + d).

(** Lower-case digit of a radix up to 16, as [Number.prototype.toString]
    prints it. *)
Definition hex_char (d : N) : ascii :=
  if (d <? 10)%N then ascii_of_N (48 + d) else ascii_of_N (87 + d).

Fixpoint digits_fuel (fuel : nat) (radix : N) (digit : N -> ascii)
    (n : N) (acc : string) : string :=
  match fuel with
  | O => acc
  | S k =>
      let acc' := String (digit (n mod radix)%N) acc in
      if (n / radix =? 0)%N then acc'
      else digits_fuel k radix digit (n / radix)%N acc'
  end.

(** A non-negative integer in decimal; the fuel is the bit length of the
    number, which bounds its count of digits. *)
Definition decimal (n : N) : string :=
  digits_fuel (S (N.to_nat (N.log2 n))) 10 digit_char n "".

(** [n.toString(16)] for a non-negative integer. *)
Definition toString16 (n : N) : string :=
  digits_fuel (S (N.to_nat (N.log2 n))) 16 hex_char n "".

Fixpoint pow10 (f : nat) : Z :=
  match f with
  | O => 1%Z
  | S k => (10 * pow10 k)%Z
  end.

(** [x.toFixed(f)] for a finite [x] below 1e21: the integer [n] nearest to
    [|x| * 10^f] (the larger at a tie), printed with [f] decimals and the
    sign of [x]. *)
Definition toFixed (f : nat) (x : Q) : string :=
  let neg := if Qlt_le_dec x 0 then true else false in
  let a := Qabs x in
  let n := Z.to_N (Qfloor (a * inject_Z (pow10 f) + (1 # 2))) in
  let m := padStart (S f) "0" (decimal n) in
  let k := (String.length m - f)%nat in
  let body :=
    match f with
    | O => m
    | _ => substring 0 k m ++ "." ++ substring k f m
    end in
  if neg then "-" ++ body else body.

(** [function fmtDeg(deg)]: [wrap360(deg).toFixed(1).padStart(5, '0')]. *)
Definition fmtDeg (deg : Q) : string :=
  let d := wrap360 deg in
  padStart 5 "0" (toFixed 1 d).

(** [function fmtXteNm(nm)]:
    [Math.max(0, Math.min(9.99, nm)).toFixed(2)]. *)
Definition fmtXteNm (nm : Q) : string :=
  let n := Qmax 0 (Qmin (999 # 100) nm) in
  toFixed 2 n.

Definition CRLF : string := String (ascii_of_N 13) (String (ascii_of_N 10) "").

(** The loop of [addChecksum]: [for (i = 1; ...) c ^= sentence.charCodeAt(i)],
    run over the characters it visits. *)
Fixpoint xor_codes (s : string) (c : N) : N :=
  match s with
  | EmptyString => c
  | String a r => xor_codes r (N.lxor c (N_of_ascii a))
  end.

(** [function addChecksum(sentence)], the same text in both files:
<<
    let c = 0
    for (let i = 1; i < sentence.length; i++) c ^= sentence.charCodeAt(i)
    const hex = c.toString(16).toUpperCase().padStart(2, '0')
    return `${sentence}*${hex}\r\n`
>> *)
Definition addChecksum (sentence : string) : string :=
  let c := xor_codes (substring 1 (String.length sentence - 1) sentence) 0 in
  let hex := padStart 2 "0" (toUpperCase (toString16 c)) in
  sentence ++ "*" ++ hex ++ CRLF.

(** [x || ''] for a string that may be null or undefined. *)
Definition orEmpty (x : option string) : string :=
  match x with Some s => s | None => "" end.

(** [function buildBOD({ talker, trueDeg, magDeg, dest, orig })], the same
    text in both files. *)
Definition buildBOD (talker : string) (trueDeg magDeg : option Q)
    (dest orig : option string) : string :=
  let tField := match trueDeg with Some d => fmtDeg d | None => "" end in
  let mField := match magDeg with Some d => fmtDeg d | None => "" end in
  let body := talker ++ "BOD," ++ tField ++ ",T," ++ mField ++ ",M,"
              ++ orEmpty dest ++ "," ++ orEmpty orig in
  addChecksum ("$" ++ body).

(** [function sanitizeTalker(t)], the same text in both files:
<<
    const up = String(t || 'II').toUpperCase().replace(/[^A-Z0-9]/g, '')
    return up.length >= 2 ? up.slice(0, 2) : 'II'
>>
    [None] stands for null and undefined; the empty string is falsy too. *)
Definition sanitizeTalker (t : option string) : string :=
  let t' := match t with
            | Some s => if String.eqb s "" then "II" else s
            | None => "II"
            end in
  let up := strip_non_A_Z_0_9 (toUpperCase t') in
  if (2 <=? String.length up)%nat then substring 0 2 up else "II".

(** [String.prototype.trim] on the one-byte alphabet: tab, line feed,
    vertical tab, form feed, carriage return, space and no-break space. *)
Definition is_space (c : ascii) : bool :=
  let n := N_of_ascii c in
  ((9 <=? n)%N && (n <=? 13)%N) || (n =? 32)%N || (n =? 160)%N.

Fixpoint trimStart (s : string) : string :=
  match s with
  | EmptyString => EmptyString
  | String c r => if is_space c then trimStart r else s
  end.

Fixpoint trimEnd (s : string) : string :=
  match s with
  | EmptyString => EmptyString
  | String c r =>
      let r' := trimEnd r in
      if is_space c && String.eqb r' "" then "" else String c r'
  end.

Definition trim (s : string) : string := trimEnd (trimStart s).

(** ** The telemetry provider

    [app.getSelfPath(path)] answers with an object carrying [value] and
    [timestamp], or with nothing.  A value is null/undefined, a scalar
    (carried as the number [Number(v)] makes of it), or an object (carried
    as what [Number] makes of its [latitude] and [longitude]).  The
    timestamp is carried as [Date.parse] reads it; [None] is a missing or
    empty one. *)

Inductive jsvalue : Type :=
| VAbsent
| VScalar (n : number)
| VObject (latitude longitude : number).

Record Reading : Type := {
  value : jsvalue;
  timestamp : option number
}.

Record Env : Type := {
  getSelfPath : string -> option Reading;
  Date_now : Q
}.

(** [app.getSelfPath(path)?.value] *)
Definition value_at (env : Env) (path : string) : jsvalue :=
  match getSelfPath env path with
  | Some r => value r
  | None => VAbsent
  end.

(** [app.getSelfPath(path)?.timestamp] *)
Definition timestamp_at (env : Env) (path : string) : option number :=
  match getSelfPath env path with
  | Some r => timestamp r
  | None => None
  end.

(** [Number(v)] for a value that is not null or undefined: an object that
    is not a number gives NaN. *)
Definition Number_of (v : jsvalue) : number :=
  match v with
  | VScalar n => n
  | _ => NaN
  end.

(** [Math.PI * 2 + 0.5], the bound of the radians heuristic. *)
Definition radians_bound : Q := Math_PI * 2 + (1 # 2).

(** ** The BOD + APB plugin ([src/unnamed/part_000]) *)

Module HtsBodApb.

Inductive Mode : Type := BOD | APB.

Inductive Side : Type := L | R.

(** [{ lat, lon }] *)
Record LatLon : Type := { lat : Q; lon : Q }.

(** What [readPosition] returns. *)
Record Position : Type := {
  p_lat : Q;
  p_lon : Q;
  timestampMs : option Q
}.

Record Paths : Type := {
  position : string;
  cogMag : string;
  cogTrue : string;
  hdgMag : string;
  hdgTrue : string;
  variation : string
}.

Definition default_paths : Paths := {|
  position := "navigation.position";
  cogMag := "navigation.courseOverGroundMagnetic";
  cogTrue := "navigation.courseOverGroundTrue";
  hdgMag := "navigation.headingMagnetic";
  hdgTrue := "navigation.headingTrue";
  variation := "navigation.magneticVariation"
|}.

(** [status.raw] *)
Record Raw : Type := {
  raw_position : option Position;
  positionAgeMs : option Q;
  raw_variationDeg : option Q;
  raw_cogMagDeg : option Q;
  raw_cogTrueDeg : option Q;
  raw_hdgMagDeg : option Q;
  raw_hdgTrueDeg : option Q
}.

(** [status.best] *)
Record Best : Type := {
  best_position : option LatLon;
  positionFresh : bool;
  variationDeg : option Q;
  cogMagDeg : option Q;
  cogMagSource : option string;
  headingMagDeg : option Q;
  headingMagSource : option string
}.

(** What [computeStatus] returns; [now] stands for [nowIso]. *)
Record Status : Type := {
  now : Q;
  paths : Paths;
  raw : Raw;
  best : Best
}.

(** The module-level variables of the plugin. *)
Record State : Type := {
  enabled : bool;
  mode : Mode;
  targetMagDeg : option Q;
  trackActive : bool;
  trackStart : option LatLon;
  trackBearingMagDeg : option Q;
  trackBearingTrueDeg : option Q;
  trackName : string;
  lastSentence : option string;
  lastEmitTs : option Q;
  lastStatus : option Status
}.

(** The values the variables are declared with. *)
Definition initial : State := {|
  enabled := false;
  mode := BOD;
  targetMagDeg := None;
  trackActive := false;
  trackStart := None;
  trackBearingMagDeg := None;
  trackBearingTrueDeg := None;
  trackName := "RHUMB";
  lastSentence := None;
  lastEmitTs := None;
  lastStatus := None
|}.

Definition set_enabled (b : bool) (s : State) : State :=
  {| enabled := b; mode := mode s; targetMagDeg := targetMagDeg s;
     trackActive := trackActive s; trackStart := trackStart s;
     trackBearingMagDeg := trackBearingMagDeg s;
     trackBearingTrueDeg := trackBearingTrueDeg s; trackName := trackName s;
     lastSentence := lastSentence s; lastEmitTs := lastEmitTs s;
     lastStatus := lastStatus s |}.

Definition set_mode (m : Mode) (s : State) : State :=
  {| enabled := enabled s; mode := m; targetMagDeg := targetMagDeg s;
     trackActive := trackActive s; trackStart := trackStart s;
     trackBearingMagDeg := trackBearingMagDeg s;
     trackBearingTrueDeg := trackBearingTrueDeg s; trackName := trackName s;
     lastSentence := lastSentence s; lastEmitTs := lastEmitTs s;
     lastStatus := lastStatus s |}.

Definition set_targetMagDeg (t : option Q) (s : State) : State :=
  {| enabled := enabled s; mode := mode s; targetMagDeg := t;
     trackActive := trackActive s; trackStart := trackStart s;
     trackBearingMagDeg := trackBearingMagDeg s;
     trackBearingTrueDeg := trackBearingTrueDeg s; trackName := trackName s;
     lastSentence := lastSentence s; lastEmitTs := lastEmitTs s;
     lastStatus := lastStatus s |}.

Definition set_trackActive (b : bool) (s : State) : State :=
  {| enabled := enabled s; mode := mode s; targetMagDeg := targetMagDeg s;
     trackActive := b; trackStart := trackStart s;
     trackBearingMagDeg := trackBearingMagDeg s;
     trackBearingTrueDeg := trackBearingTrueDeg s; trackName := trackName s;
     lastSentence := lastSentence s; lastEmitTs := lastEmitTs s;
     lastStatus := lastStatus s |}.

Definition set_trackStart (p : option LatLon) (s : State) : State :=
  {| enabled := enabled s; mode := mode s; targetMagDeg := targetMagDeg s;
     trackActive := trackActive s; trackStart := p;
     trackBearingMagDeg := trackBearingMagDeg s;
     trackBearingTrueDeg := trackBearingTrueDeg s; trackName := trackName s;
     lastSentence := lastSentence s; lastEmitTs := lastEmitTs s;
     lastStatus := lastStatus s |}.

Definition set_trackBearingMagDeg (b : option Q) (s : State) : State :=
  {| enabled := enabled s; mode := mode s; targetMagDeg := targetMagDeg s;
     trackActive := trackActive s; trackStart := trackStart s;
     trackBearingMagDeg := b;
     trackBearingTrueDeg := trackBearingTrueDeg s; trackName := trackName s;
     lastSentence := lastSentence s; lastEmitTs := lastEmitTs s;
     lastStatus := lastStatus s |}.

Definition set_trackBearingTrueDeg (b : option Q) (s : State) : State :=
  {| enabled := enabled s; mode := mode s; targetMagDeg := targetMagDeg s;
     trackActive := trackActive s; trackStart := trackStart s;
     trackBearingMagDeg := trackBearingMagDeg s;
     trackBearingTrueDeg := b; trackName := trackName s;
     lastSentence := lastSentence s; lastEmitTs := lastEmitTs s;
     lastStatus := lastStatus s |}.

Definition set_last (sentence : option string) (ts : option Q) (s : State)
    : State :=
  {| enabled := enabled s; mode := mode s; targetMagDeg := targetMagDeg s;
     trackActive := trackActive s; trackStart := trackStart s;
     trackBearingMagDeg := trackBearingMagDeg s;
     trackBearingTrueDeg := trackBearingTrueDeg s; trackName := trackName s;
     lastSentence := sentence; lastEmitTs := ts;
     lastStatus := lastStatus s |}.

Definition set_lastStatus (st : option Status) (s : State) : State :=
  {| enabled := enabled s; mode := mode s; targetMagDeg := targetMagDeg s;
     trackActive := trackActive s; trackStart := trackStart s;
     trackBearingMagDeg := trackBearingMagDeg s;
     trackBearingTrueDeg := trackBearingTrueDeg s; trackName := trackName s;
     lastSentence := lastSentence s; lastEmitTs := lastEmitTs s;
     lastStatus := st |}.

(** [function readPosition(path)]:
<<
    const v = app.getSelfPath(path)?.value
    if (!v || typeof v !== 'object') return null
    const lat = Number(v.latitude)
    const lon = Number(v.longitude)
    if (!Number.isFinite(lat) || !Number.isFinite(lon)) return null
    const ts = app.getSelfPath(path)?.timestamp
    const timestampMs = ts ? Date.parse(ts) : null
    return { lat, lon, timestampMs: Number.isFinite(timestampMs) ? timestampMs : null }
>> *)
Definition readPosition (env : Env) (path : string) : option Position :=
  match value_at env path with
  | VObject (Num la) (Num lo) =>
      let ts := match timestamp_at env path with
                | Some (Num t) => Some t
                | _ => None
                end in
      Some {| p_lat := la; p_lon := lo; timestampMs := ts |}
  | _ => None
  end.

(** [function readAngleDeg(path)]:
<<
    const v = app.getSelfPath(path)?.value
    if (v == null) return null
    const num = Number(v)
    if (!Number.isFinite(num)) return null
    const deg = Math.abs(num) <= Math.PI * 2 + 0.5 ? radToDeg(num) : num
    return wrap360(deg)
>> *)
Definition readAngleDeg (env : Env) (path : string) : option Q :=
  match value_at env path with
  | VAbsent => None
  | v =>
      match Number_of v with
      | Num num =>
          let deg := if Qle_bool (Qabs num) radians_bound
                     then radToDeg num else num in
          Some (wrap360 deg)
      | _ => None
      end
  end.

Definition is_some {A : Type} (x : option A) : bool :=
  match x with Some _ => true | None => false end.

(** [function computeStatus(PATHS, gpsStaleSeconds)] *)
Definition computeStatus (env : Env) (PATHS : Paths) (gpsStaleSeconds : Q)
    : Status :=
  let now := Date_now env in
  let pos := readPosition env (position PATHS) in
  let posFresh :=
    match pos with
    | Some p =>
        match timestampMs p with
        | Some ts => Qle_bool (now - ts) (gpsStaleSeconds * 1000)
        | None => false
        end
    | None => false
    end in
  let variation := readAngleDeg env (variation PATHS) in
  let cogMag := readAngleDeg env (cogMag PATHS) in
  let cogTrue := readAngleDeg env (cogTrue PATHS) in
  let hdgMag := readAngleDeg env (hdgMag PATHS) in
  let hdgTrue := readAngleDeg env (hdgTrue PATHS) in
  (* Best available COG magnetic *)
  let bestCogMagDeg := cogMag in
  let cogSource := if is_some cogMag then Some (HtsBodApb.cogMag PATHS)
                   else None in
  let '(bestCogMagDeg, cogSource) :=
    match bestCogMagDeg, cogTrue, variation with
    | None, Some ct, Some va =>
        (Some (wrap360 (ct - va)),
         Some (HtsBodApb.cogTrue PATHS ++ " + variation"))
    | _, _, _ => (bestCogMagDeg, cogSource)
    end in
  let '(bestCogMagDeg, cogSource) :=
    match bestCogMagDeg, hdgMag with
    | None, Some hm =>
        (Some hm, Some (HtsBodApb.hdgMag PATHS ++ " (fallback)"))
    | _, _ => (bestCogMagDeg, cogSource)
    end in
  (* Best available heading magnetic *)
  let bestHdgMagDeg := hdgMag in
  let hdgSource := if is_some hdgMag then Some (HtsBodApb.hdgMag PATHS)
                   else None in
  let '(bestHdgMagDeg, hdgSource) :=
    match bestHdgMagDeg, hdgTrue, variation with
    | None, Some ht, Some va =>
        (Some (wrap360 (ht - va)),
         Some (HtsBodApb.hdgTrue PATHS ++ " + variation"))
    | _, _, _ => (bestHdgMagDeg, hdgSource)
    end in
  {| now := now;
     paths := PATHS;
     raw := {| raw_position := pos;
               positionAgeMs :=
                 match pos with
                 | Some p => match timestampMs p with
                             | Some ts => Some (now - ts)
                             | None => None
                             end
                 | None => None
                 end;
               raw_variationDeg := variation;
               raw_cogMagDeg := cogMag;
               raw_cogTrueDeg := cogTrue;
               raw_hdgMagDeg := hdgMag;
               raw_hdgTrueDeg := hdgTrue |};
     best := {| best_position :=
                  match pos with
                  | Some p => Some {| lat := p_lat p; lon := p_lon p |}
                  | None => None
                  end;
                positionFresh := posFresh;
                variationDeg := variation;
                cogMagDeg := bestCogMagDeg;
                cogMagSource := cogSource;
                headingMagDeg := bestHdgMagDeg;
                headingMagSource := hdgSource |} |}.

(** What [start] fixes for the handlers and the timer it creates. *)
Record Config : Type := {
  talker : string;
  PATHS : Paths;
  gpsStaleSeconds : Q;
  periodMs : Q
}.

(** The plugin options; [None] and the empty string are the falsy values
    that [||] replaces by the default, and so is the number 0. *)
Record Options : Type := {
  o_enabled : bool;
  o_defaultMode : option string;
  o_rateHz : option Q;
  o_talker : option string;
  o_gpsStaleSeconds : option Q;
  o_path_position : option string;
  o_path_cogMag : option string;
  o_path_cogTrue : option string;
  o_path_hdgMag : option string;
  o_path_hdgTrue : option string;
  o_path_variation : option string
}.

(** [x || d] on strings *)
Definition str_or (x : option string) (d : string) : string :=
  match x with
  | Some s => if String.eqb s "" then d else s
  | None => d
  end.

(** [Number(x || d)] on numbers *)
Definition num_or (x : option Q) (d : Q) : Q :=
  match x with
  | Some q => if Qeq_bool q 0 then d else q
  | None => d
  end.

(** The configuration part of [start(options)]. *)
Definition config_of (o : Options) : Config :=
  let rateHz := num_or (o_rateHz o) 1 in
  {| talker := sanitizeTalker (Some (str_or (o_talker o) "II"));
     PATHS := {|
       position := str_or (o_path_position o) "navigation.position";
       cogMag := str_or (o_path_cogMag o) "navigation.courseOverGroundMagnetic";
       cogTrue := str_or (o_path_cogTrue o) "navigation.courseOverGroundTrue";
       hdgMag := str_or (o_path_hdgMag o) "navigation.headingMagnetic";
       hdgTrue := str_or (o_path_hdgTrue o) "navigation.headingTrue";
       variation := str_or (o_path_variation o) "navigation.magneticVariation"
     |};
     gpsStaleSeconds := num_or (o_gpsStaleSeconds o) 5;
     periodMs := Qmax 100 (Math_round (1000 / rateHz)) |}.

(** The state part of [start(options)]:
    [enabled = !!options.enabled],
    [mode = options.defaultMode === 'APB' ? 'APB' : 'BOD']. *)
Definition start (o : Options) (s : State) : State :=
  let s := set_enabled (o_enabled o) s in
  set_mode (match o_defaultMode o with
            | Some m => if String.eqb m "APB" then APB else BOD
            | None => BOD
            end) s.

(** [function buildAPB({ talker, xteNm, xteSide, htsMagDeg, htsTrueDeg, destId })] *)
Definition buildAPB (talker : string) (xteNm : Q) (xteSide : Side)
    (htsMagDeg htsTrueDeg : option Q) (destId : option string) : string :=
  let xte := fmtXteNm xteNm in
  let side := match xteSide with L => "L" | R => "R" end in
  let htsT := match htsTrueDeg with Some d => fmtDeg d | None => "" end in
  let htsM := match htsMagDeg with Some d => fmtDeg d | None => "" end in
  let body := talker ++ "APB,A,A," ++ xte ++ "," ++ side ++ ",N,A,A,"
              ++ htsT ++ ",T," ++ htsM ++ ",M," ++ orEmpty destId ++ ",,," in
  addChecksum ("$" ++ body).

(** What [computeXteNmAndSide] returns. *)
Record Xte : Type := { nm : Q; side : Side }.

Section Trigonometry.

(** [Math.sin] and [Math.cos]: ECMAScript leaves their values to the
    implementation, so they are parameters of the development. *)
Variable Math_sin : Q -> Q.
Variable Math_cos : Q -> Q.

(** Earth radius (m) *)
Definition R_earth : Q := 6371000.

(** The first part of [computeXteNmAndSide], down to
<<
    const xte_m = -Math.sin(theta) * dE + Math.cos(theta) * dN
>> *)
Definition xte_m (start cur : LatLon) (bearingMagDeg : Q) : Q :=
  let lat0 := degToRad (lat start) in
  let dLat := degToRad (lat cur - lat start) in
  let dLon := degToRad (lon cur - lon start) in
  let dN := dLat * R_earth in
  let dE := dLon * R_earth * Math_cos lat0 in
  let theta := degToRad bearingMagDeg in
  - Math_sin theta * dE + Math_cos theta * dN.

(** [function computeXteNmAndSide(start, cur, bearingMagDeg)], from
    [xte_m] on:
<<
    const nm = Math.min(Math.abs(xte_m) / 1852, 9.99)
    const side = xte_m >= 0 ? 'R' : 'L'
    return { nm: round2(nm), side }
>> *)
Definition computeXteNmAndSide (start cur : LatLon) (bearingMagDeg : Q)
    : Xte :=
  let x := xte_m start cur bearingMagDeg in
  let nm := Qmin (Qabs x / 1852) (999 # 100) in
  let side := if Qle_bool 0 x then R else L in
  {| nm := round2 nm; side := side |}.

(** The blocks of the [/cmd] handler, in the order of the source.  Each
    changes the variables of the plugin or leaves them alone. *)

Definition when (b : bool) (f : State -> State) (s : State) : State :=
  if b then f s else s.

(** [if (c === 'hold_heading')]:
<<
    if (curHeadingMag != null) {
      targetMagDeg = curHeadingMag
      mode = 'BOD'
      trackActive = false
    }
>> *)
Definition do_hold_heading (status : Status) (s : State) : State :=
  match headingMagDeg (best status) with
  | Some h => set_trackActive false (set_mode BOD (set_targetMagDeg (Some h) s))
  | None => s
  end.

(** [if (c === 'set_heading')]:
<<
    const n = Number(v)
    if (Number.isFinite(n)) {
      targetMagDeg = wrap360(n)
      mode = 'BOD'
      trackActive = false
    }
>> *)
Definition do_set_heading (n : number) (s : State) : State :=
  match n with
  | Num q =>
      set_trackActive false
        (set_mode BOD (set_targetMagDeg (Some (wrap360 q)) s))
  | _ => s
  end.

(** [if (c === 'hold_rhumb')]:
<<
    if (curPos && status.best.positionFresh) {
      const bearingMag = curCogMag != null ? curCogMag : curHeadingMag
      if (bearingMag != null) {
        trackStart = { lat: curPos.lat, lon: curPos.lon }
        trackBearingMagDeg = wrap360(bearingMag)
        if (status.best.variationDeg != null) {
          trackBearingTrueDeg = wrap360(trackBearingMagDeg + status.best.variationDeg)
        } else {
          trackBearingTrueDeg = null
        }
        trackActive = true
        mode = 'APB'
        targetMagDeg = null
      }
    }
>> *)
Definition do_hold_rhumb (status : Status) (s : State) : State :=
  let curHeadingMag := headingMagDeg (best status) in
  let curCogMag := cogMagDeg (best status) in
  let curPos := best_position (best status) in
  match curPos with
  | Some p =>
      if positionFresh (best status) then
        let bearingMag :=
          match curCogMag with Some b => Some b | None => curHeadingMag end in
        match bearingMag with
        | Some b =>
            let s := set_trackStart (Some {| lat := lat p; lon := lon p |}) s in
            let tb := wrap360 b in
            let s := set_trackBearingMagDeg (Some tb) s in
            let s :=
              set_trackBearingTrueDeg
                match variationDeg (best status) with
                | Some va => Some (wrap360 (tb + va))
                | None => None
                end s in
            let s := set_trackActive true s in
            let s := set_mode APB s in
            set_targetMagDeg None s
        | None => s
        end
      else s
  | None => s
  end.

(** [if (c === 'stop_track')]:
<<
    trackActive = false
    trackStart = null
    trackBearingMagDeg = null
    trackBearingTrueDeg = null
>> *)
Definition do_stop_track (s : State) : State :=
  set_trackBearingTrueDeg None
    (set_trackBearingMagDeg None
       (set_trackStart None (set_trackActive false s))).

(** [c === 'p1' ? 1 : c === 'm1' ? -1 : c === 'p10' ? 10 : c === 'm10' ? -10 : 0] *)
Definition delta_of (c : string) : Q :=
  if c =? "p1" then 1 else if c =? "m1" then -1
  else if c =? "p10" then 10 else if c =? "m10" then -10 else 0.

(** [if (mode === 'BOD' && targetMagDeg != null) targetMagDeg = wrap360(targetMagDeg + delta)] *)
Definition adjust_heading (delta : Q) (s : State) : State :=
  match mode s, targetMagDeg s with
  | BOD, Some t => set_targetMagDeg (Some (wrap360 (t + delta))) s
  | _, _ => s
  end.

(** [if (mode === 'APB' && trackActive && trackBearingMagDeg != null)]:
<<
    trackBearingMagDeg = wrap360(trackBearingMagDeg + delta)
    if (status.best.variationDeg != null) {
      trackBearingTrueDeg = wrap360(trackBearingMagDeg + status.best.variationDeg)
    } else {
      trackBearingTrueDeg = null
    }
>> *)
Definition adjust_track (status : Status) (delta : Q) (s : State) : State :=
  match mode s, trackActive s, trackBearingMagDeg s with
  | APB, true, Some b =>
      let tb := wrap360 (b + delta) in
      let s := set_trackBearingMagDeg (Some tb) s in
      set_trackBearingTrueDeg
        match variationDeg (best status) with
        | Some va => Some (wrap360 (tb + va))
        | None => None
        end s
  | _, _, _ => s
  end.

(** [if (delta !== 0) { ... }] *)
Definition do_adjust (status : Status) (delta : Q) (s : State) : State :=
  if Qeq_bool delta 0 then s
  else adjust_track status delta (adjust_heading delta s).

(** One POST to [/cmd]: [c] is [req.body.c] and [n] is what [Number(v)]
    makes of [req.body.v].  The answer of the handler is the state it
    leaves, so that is what the function returns. *)
Definition cmd (cfg : Config) (env : Env) (c : string) (n : number)
    (s : State) : State :=
  let s := when (c =? "enable") (set_enabled true) s in
  let s := when (c =? "disable") (set_enabled false) s in
  let s := when (c =? "mode_bod") (set_mode BOD) s in
  let s := when (c =? "mode_apb") (set_mode APB) s in
  let status := computeStatus env (PATHS cfg) (gpsStaleSeconds cfg) in
  (* ----- BOD controls ----- *)
  let s := when (c =? "hold_heading") (do_hold_heading status) s in
  let s := when (c =? "set_heading") (do_set_heading n) s in
  let s := when (c =? "clear_heading") (set_targetMagDeg None) s in
  (* ----- Track hold controls ----- *)
  let s := when (c =? "hold_rhumb") (do_hold_rhumb status) s in
  let s := when (c =? "stop_track") do_stop_track s in
  (* ----- Adjustments apply to whichever mode is active ----- *)
  do_adjust status (delta_of c) s.

(** [function emit(sentence)]: records the sentence and the time and hands
    the sentence to the sink ([app.emit('nmea0183out', sentence)]); the
    second component is what the sink receives. *)
Definition emit (env : Env) (sentence : string) (s : State)
    : State * option string :=
  (set_last (Some (trim sentence)) (Some (Date_now env)) s, Some sentence).

(** The callback of [setInterval]: the state it leaves and the sentence it
    hands to the sink, if any. *)
Definition tick (cfg : Config) (env : Env) (s : State)
    : State * option string :=
  let status := computeStatus env (PATHS cfg) (gpsStaleSeconds cfg) in
  let s := set_lastStatus (Some status) s in
  if negb (enabled s) then (s, None)
  else
    match mode s with
    | BOD =>
        match targetMagDeg s with
        | None => (s, None)
        | Some target =>
            let trueDeg :=
              match variationDeg (best status) with
              | Some va => Some (wrap360 (target + va))
              | None => None
              end in
            let sentence :=
              buildBOD (talker cfg) trueDeg (Some target)
                       (Some "DEST") (Some "ORIG") in
            emit env sentence s
        end
    | APB =>
        match trackActive s, trackStart s, trackBearingMagDeg s with
        | true, Some tstart, Some brg =>
            match positionFresh (best status), best_position (best status) with
            | true, Some cur =>
                let xte := computeXteNmAndSide tstart cur brg in
                let htsMag := Some brg in
                let htsTrue :=
                  match variationDeg (best status) with
                  | Some va => Some (wrap360 (brg + va))
                  | None => None
                  end in
                let sentence :=
                  buildAPB (talker cfg) (nm xte) (side xte) htsMag htsTrue
                           (Some (trackName s)) in
                emit env sentence s
            | _, _ => (s, None)
            end
        | _, _, _ => (s, None)
        end
    end.

(** What can happen to the state once [start] has run. *)
Inductive Event : Type :=
| Command (env : Env) (c : string) (n : number)
| Tick (env : Env).

Definition step (cfg : Config) (s : State) (e : Event) : State :=
  match e with
  | Command env c n => cmd cfg env c n s
  | Tick env => fst (tick cfg env s)
  end.

(** The states the plugin reaches from its declared variables: [start]
    with some options, then commands and ticks in any order. *)
Inductive reachable (o : Options) : State -> Prop :=
| reach_start : reachable o (start o initial)
| reach_step s e :
    reachable o s -> reachable o (step (config_of o) s e).

End Trigonometry.

(** A request to [/cmd] with the provider as it is when the request
    arrives. *)
Definition Request : Type := (Env * string * number)%type.

(** A sequence of requests, oldest first. *)
Fixpoint commands (cfg : Config) (rs : list Request) (s : State) : State :=
  match rs with
  | [] => s
  | (env, c, n) :: rs' => commands cfg rs' (cmd cfg env c n s)
  end.

(** The two readings of the track invariant: the flag and the fields
    agree, and the flag implies the fields. *)
Definition track_fields_set (s : State) : Prop :=
  trackStart s <> None /\ trackBearingMagDeg s <> None.

Definition track_active_iff_fields (s : State) : Prop :=
  trackActive s = true <-> track_fields_set s.

Definition track_active_has_fields (s : State) : Prop :=
  trackActive s = true -> track_fields_set s.

(** A block of the handler keeps the invariant "an active track has its
    start and its bearing". *)
Definition keeps (f : State -> State) : Prop :=
  forall s, track_active_has_fields s -> track_active_has_fields (f s).

End HtsBodApb.

(** ** The BOD-only plugin ([src/index.js]) *)

Module HtsBod.

(** The module-level variables of the plugin. *)
Record State : Type := {
  enabled : bool;
  targetMagDeg : option Q;
  lastSentence : option string;
  lastEmitTs : option Q
}.

Definition initial : State :=
  {| enabled := false; targetMagDeg := None;
     lastSentence := None; lastEmitTs := None |}.

(** What [start] fixes for the handlers and the timer it creates. *)
Record Config : Type := {
  talker : string;
  headingPath : string;
  variationPath : string;
  destinationId : string;
  originId : string
}.

(** [function getAngleRad(path)]:
<<
    const v = app.getSelfPath(path)?.value
    if (v == null) return null
    const num = Number(v)
    if (!Number.isFinite(num)) return null
    return Math.abs(num) <= Math.PI * 2 + 0.5 ? num : degToRad(num)
>> *)
Definition getAngleRad (env : Env) (path : string) : option Q :=
  match value_at env path with
  | VAbsent => None
  | v =>
      match Number_of v with
      | Num num =>
          Some (if Qle_bool (Qabs num) radians_bound then num
                else degToRad num)
      | _ => None
      end
  end.

(** [function getHeadingMagDeg(path)] *)
Definition getHeadingMagDeg (env : Env) (path : string) : option Q :=
  match getAngleRad env path with
  | None => None
  | Some rad => Some (wrap360 (radToDeg rad))
  end.

Definition set_enabled (b : bool) (s : State) : State :=
  {| enabled := b; targetMagDeg := targetMagDeg s;
     lastSentence := lastSentence s; lastEmitTs := lastEmitTs s |}.

Definition set_targetMagDeg (t : option Q) (s : State) : State :=
  {| enabled := enabled s; targetMagDeg := t;
     lastSentence := lastSentence s; lastEmitTs := lastEmitTs s |}.

Definition when (b : bool) (f : State -> State) (s : State) : State :=
  if b then f s else s.

(** [if (c === 'hold' && cur != null) targetMagDeg = cur] *)
Definition do_hold (cur : option Q) (s : State) : State :=
  match cur with
  | Some h => set_targetMagDeg (Some h) s
  | None => s
  end.

(** [if (c === name && targetMagDeg != null) targetMagDeg = wrap360(targetMagDeg + delta)] *)
Definition nudge (delta : Q) (s : State) : State :=
  match targetMagDeg s with
  | Some t => set_targetMagDeg (Some (wrap360 (t + delta))) s
  | None => s
  end.

(** [if (c === 'set')]:
<<
    const n = Number(v)
    if (Number.isFinite(n)) targetMagDeg = wrap360(n)
>> *)
Definition do_set (n : number) (s : State) : State :=
  match n with
  | Num q => set_targetMagDeg (Some (wrap360 q)) s
  | _ => s
  end.

(** One POST to [/cmd]; [n] is what [Number(v)] makes of [req.body.v]. *)
Definition cmd (cfg : Config) (env : Env) (c : string) (n : number)
    (s : State) : State :=
  let s := when (c =? "enable") (set_enabled true) s in
  let s := when (c =? "disable") (set_enabled false) s in
  let s := when (c =? "clear") (set_targetMagDeg None) s in
  let cur := getHeadingMagDeg env (headingPath cfg) in
  let s := when (c =? "hold") (do_hold cur) s in
  let s := when (c =? "p1") (nudge 1) s in
  let s := when (c =? "m1") (nudge (-1)) s in
  let s := when (c =? "p10") (nudge 10) s in
  let s := when (c =? "m10") (nudge (-10)) s in
  when (c =? "set") (do_set n) s.

(** The callback of [setInterval]. *)
Definition tick (cfg : Config) (env : Env) (s : State)
    : State * option string :=
  if negb (enabled s) then (s, None)
  else
    match targetMagDeg s with
    | None => (s, None)
    | Some target =>
        let variationRad := getAngleRad env (variationPath cfg) in
        let targetTrueDeg :=
          match variationRad with
          | Some va => Some (wrap360 (target + radToDeg va))
          | None => None
          end in
        let sentence :=
          buildBOD (talker cfg) targetTrueDeg (Some target)
                   (Some (destinationId cfg)) (Some (originId cfg)) in
        ({| enabled := enabled s; targetMagDeg := targetMagDeg s;
            lastSentence := Some (trim sentence);
            lastEmitTs := Some (Date_now env) |},
         Some sentence)
    end.

(** The plugin options of [start(options)]; [None] and the empty string
    are the falsy values that [||] replaces by the default, and so is the
    number 0. *)
Record Options : Type := {
  o_enabled : bool;
  o_rateHz : option Q;
  o_talker : option string;
  o_headingPath : option string;
  o_variationPath : option string;
  o_destinationId : option string;
  o_originId : option string
}.

(** The configuration part of [start(options)]:
<<
    const talker = sanitizeTalker(options.talker || 'II')
    const headingPath = options.headingPath || 'navigation.headingMagnetic'
    const variationPath = options.variationPath || 'navigation.magneticVariation'
    const destinationId = (options.destinationId || 'DEST').slice(0, 8)
    const originId = (options.originId || 'ORIG').slice(0, 8)
>> *)
Definition config_of (o : Options) : Config :=
  {| talker := sanitizeTalker (Some (HtsBodApb.str_or (o_talker o) "II"));
     headingPath :=
       HtsBodApb.str_or (o_headingPath o) "navigation.headingMagnetic";
     variationPath :=
       HtsBodApb.str_or (o_variationPath o) "navigation.magneticVariation";
     destinationId :=
       substring 0 8 (HtsBodApb.str_or (o_destinationId o) "DEST");
     originId := substring 0 8 (HtsBodApb.str_or (o_originId o) "ORIG") |}.

(** [Math.max(100, Math.round(1000 / rateHz))] with
    [rateHz = Number(options.rateHz || 1)]. *)
Definition periodMs (o : Options) : Q :=
  Qmax 100 (Math_round (1000 / HtsBodApb.num_or (o_rateHz o) 1)).

(** The state part of [start(options)]: [enabled = !!options.enabled]. *)
Definition start (o : Options) (s : State) : State :=
  set_enabled (o_enabled o) s.

End HtsBod.

(** The value of an upper-case hexadecimal digit. *)
Definition upper_hex_value (c : ascii) : option N :=
  let n := N_of_ascii c in
  if is_digit c then Some (n - 48)%N
  else if (65 <=? n)%N && (n <=? 70)%N then Some (n - 55)%N
  else None.

(** The two digits [addChecksum] prints for a byte. *)
Definition checksum_digits (c : N) : string :=
  padStart 2 "0" (toUpperCase (toString16 c)).

Definition two_upper_hex_digits_of (c : N) (s : string) : bool :=
  match s with
  | String h1 (String h2 EmptyString) =>
      match upper_hex_value h1, upper_hex_value h2 with
      | Some v1, Some v2 => ((v1 =? c / 16) && (v2 =? c mod 16))%N
      | _, _ => false
      end
  | _ => false
  end.

(** A string without the space character, as Signal K paths are. *)
Definition no_space (s : string) : bool :=
  forall_string (fun c => negb (Ascii.eqb c " ")) s.

(** How [buildBOD] and [buildAPB] render an angle that may be null. *)
Definition angle_field (a : option Q) : string :=
  match a with Some d => fmtDeg d | None => "" end.

(** ** Sample inputs *)

Module Sample.

Import HtsBodApb.

(** A provider that knows the listed paths. *)
Fixpoint provider (l : list (string * Reading)) (path : string)
    : option Reading :=
  match l with
  | [] => None
  | (p, r) :: l' => if String.eqb p path then Some r else provider l' path
  end.

Definition scalar (q : Q) : Reading :=
  {| value := VScalar (Num q); timestamp := None |}.

Definition fix_at (la lo : Q) (ts : Q) : Reading :=
  {| value := VObject (Num la) (Num lo); timestamp := Some (Num ts) |}.

(** All options left to their defaults. *)
Definition no_options : Options :=
  {| o_enabled := false; o_defaultMode := None; o_rateHz := None;
     o_talker := None; o_gpsStaleSeconds := None;
     o_path_position := None; o_path_cogMag := None;
     o_path_cogTrue := None; o_path_hdgMag := None;
     o_path_hdgTrue := None; o_path_variation := None |}.

Definition cfg0 : Config := config_of no_options.

(** Nothing but one scalar reading at one path. *)
Definition env_one (path : string) (q : Q) : Env :=
  {| getSelfPath := provider [(path, scalar q)]; Date_now := 0 |}.

(** A position two seconds old and a magnetic heading of 90 degrees. *)
Definition env_underway : Env :=
  {| getSelfPath :=
       provider [("navigation.position", fix_at 50 10 1000);
                 ("navigation.headingMagnetic", scalar 90)];
     Date_now := 3000 |}.

(** The same readings a minute later. *)
Definition env_stale : Env :=
  {| getSelfPath := getSelfPath env_underway; Date_now := 63000 |}.

(** True course 90 degrees, variation 5 degrees east (in radians), no
    magnetic course. *)
Definition env_true_course : Env :=
  {| getSelfPath :=
       provider [("navigation.courseOverGroundTrue", scalar 90);
                 ("navigation.magneticVariation", scalar (degToRad 5))];
     Date_now := 0 |}.

(** 359.96875 = 11519/32: a double with no rounding in [* 10]. *)
Definition just_below_360 : Q := 11519 # 32.

(** Stand-ins for the sine and the cosine where a run needs them. *)
Definition sin0 : Q -> Q := fun _ => 0.
Definition cos0 : Q -> Q := fun _ => 1.

(** Started with the default options, then enabled and a track captured. *)
Definition tracking : State :=
  step sin0 cos0 cfg0
    (step sin0 cos0 cfg0 (start no_options initial)
       (Command env_underway "enable" NaN))
    (Command env_underway "hold_rhumb" NaN).

(** The default options of the BOD-only plugin. *)
Definition bod_no_options : HtsBod.Options :=
  {| HtsBod.o_enabled := false; HtsBod.o_rateHz := None;
     HtsBod.o_talker := None; HtsBod.o_headingPath := None;
     HtsBod.o_variationPath := None; HtsBod.o_destinationId := None;
     HtsBod.o_originId := None |}.

End Sample.

(** ** Notions used to state further properties *)

(** The remainder of a division by 360 that follows the floor: what
    [wrap360] has after its sign fix and before it rounds. *)
Definition floor_mod_360 (a : Q) : Q :=
  a - 360 * inject_Z (Qfloor (a / 360)).

(** A whole number of tenths between 0 and 360. *)
Definition whole_tenths (t : Q) : Prop :=
  exists k : Z, (0 <= k <= 3600)%Z /\ t == inject_Z k / 10.

Definition opt_whole_tenths (o : option Q) : Prop :=
  match o with Some t => whole_tenths t | None => True end.

(** The field [ddd.d] that shows [k] tenths. *)
Definition ddd_d (k : N) : string :=
  String (digit_char (k / 1000))
    (String (digit_char (k / 100 mod 10))
       (String (digit_char (k / 10 mod 10))
          (String "." (String (digit_char (k mod 10)) "")))).

(** The field [d.dd] that shows [n] hundredths. *)
Definition d_dd (n : N) : string :=
  String (digit_char (n / 100))
    (String "."
       (String (digit_char (n / 10 mod 10))
          (String (digit_char (n mod 10)) ""))).

(** A property of the variables that a block of the handler preserves. *)
Definition preserved (I : HtsBodApb.State -> Prop)
    (f : HtsBodApb.State -> HtsBodApb.State) : Prop :=
  forall s, I s -> I (f s).

(** The variables the commands work on, and the ones that only record. *)
Definition control (s : HtsBodApb.State) :=
  (HtsBodApb.enabled s, HtsBodApb.mode s, HtsBodApb.targetMagDeg s,
   HtsBodApb.trackActive s, HtsBodApb.trackStart s,
   HtsBodApb.trackBearingMagDeg s, HtsBodApb.trackBearingTrueDeg s).

Definition records (s : HtsBodApb.State) :=
  (HtsBodApb.trackName s, HtsBodApb.lastSentence s, HtsBodApb.lastEmitTs s,
   HtsBodApb.lastStatus s).

(** The command names the [/cmd] handler of the BOD + APB plugin knows. *)
Definition command_names : list string :=
  ["enable"; "disable"; "mode_bod"; "mode_apb"; "hold_heading";
   "set_heading"; "clear_heading"; "hold_rhumb"; "stop_track";
   "p1"; "m1"; "p10"; "m10"].

Definition nudge_names : list string := ["p1"; "m1"; "p10"; "m10"].

(** The sentences a run of events hands to the sink, oldest first. *)
Fixpoint outputs (Math_sin Math_cos : Q -> Q) (cfg : HtsBodApb.Config)
    (s : HtsBodApb.State) (es : list HtsBodApb.Event) : list string :=
  match es with
  | [] => []
  | e :: es' =>
      let out :=
        match e with
        | HtsBodApb.Tick env =>
            match snd (HtsBodApb.tick Math_sin Math_cos cfg env s) with
            | Some x => [x]
            | None => []
            end
        | HtsBodApb.Command _ _ _ => []
        end in
      (out ++ outputs Math_sin Math_cos cfg
                (HtsBodApb.step Math_sin Math_cos cfg s e) es')%list
  end.

Definition is_enable (e : HtsBodApb.Event) : bool :=
  match e with
  | HtsBodApb.Command _ c _ => c =? "enable"
  | HtsBodApb.Tick _ => false
  end.

(** The sum of the steps of a sequence of requests. *)
Fixpoint sum_deltas (rs : list HtsBodApb.Request) : Q :=
  match rs with
  | [] => 0
  | (_, c, _) :: rs' => HtsBodApb.delta_of c + sum_deltas rs'
  end.

Definition request_name (r : HtsBodApb.Request) : string := snd (fst r).




(** * Properties *)

Example wrap360_400 : wrap360 400 == 40.
Proof. reflexivity. Qed.

Example fmtDeg_83_4 : fmtDeg (834 # 10) = "083.4".
Proof. reflexivity. Qed.

Example fmtDeg_7 : fmtDeg 7 = "007.0".
Proof. reflexivity. Qed.

Example fmtXteNm_small : fmtXteNm (1 # 100) = "0.01".
Proof. reflexivity. Qed.

Example buildAPB_ex :
  HtsBodApb.buildAPB "II" (12 # 100) HtsBodApb.L (Some 90) None (Some "RHUMB")
  = "$IIAPB,A,A,0.12,L,N,A,A,,T,090.0,M,RHUMB,,,*1E" ++ CRLF.
Proof. vm_compute. reflexivity. Qed.

(** Enabled, heading set to 400: the next tick hands this to the sink. *)
Example tick_BOD_ex :
  snd (HtsBodApb.tick (fun _ => 0) (fun _ => 1) Sample.cfg0 Sample.env_underway
         (HtsBodApb.cmd Sample.cfg0 Sample.env_underway "set_heading" (Num 400)
            (HtsBodApb.cmd Sample.cfg0 Sample.env_underway "enable" NaN
               HtsBodApb.initial)))
  = Some ("$IIBOD,,T,040.0,M,DEST,ORIG*6F" ++ CRLF).
Proof. vm_compute. reflexivity. Qed.

Example buildBOD_ex :
  buildBOD "GP" (Some (834 # 10)) (Some 90) (Some "DEST") (Some "ORIG")
  = "$GPBOD,083.4,T,090.0,M,DEST,ORIG*54" ++ CRLF.
Proof. vm_compute. reflexivity. Qed.


(** ** Arithmetic *)


Lemma Qtrunc_comp (x y : Q) : x == y -> Qtrunc x = Qtrunc y.
Proof.
  intros E. unfold Qtrunc.
  destruct (Qlt_le_dec x 0) as [Hx|Hx], (Qlt_le_dec y 0) as [Hy|Hy].
  - now apply Qceiling_comp.
  - rewrite E in Hx. exfalso. lra.
  - rewrite E in Hx. exfalso. lra.
  - now apply Qfloor_comp.
Qed.

Lemma js_rem_comp (a b d : Q) : a == b -> js_rem a d == js_rem b d.
Proof.
  intros E. unfold js_rem.
  rewrite (Qtrunc_comp (a / d) (b / d)) by now rewrite E.
  now rewrite E.
Qed.

Lemma Math_round_comp (a b : Q) : a == b -> Math_round a = Math_round b.
Proof.
  intros E. unfold Math_round. f_equal. apply Qfloor_comp. now rewrite E.
Qed.

Lemma wrap360_comp (a b : Q) : a == b -> wrap360 a == wrap360 b.
Proof.
  intros E. unfold wrap360.
  pose proof (js_rem_comp a b 360 E) as R.
  destruct (Qlt_le_dec (js_rem a 360) 0) as [Ha|Ha],
           (Qlt_le_dec (js_rem b 360) 0) as [Hb|Hb].
  - rewrite (Math_round_comp ((js_rem a 360 + 360) * 10)
                             ((js_rem b 360 + 360) * 10)) by now rewrite R.
    reflexivity.
  - exfalso. rewrite R in Ha. lra.
  - exfalso. rewrite R in Ha. lra.
  - rewrite (Math_round_comp (js_rem a 360 * 10) (js_rem b 360 * 10))
      by now rewrite R.
    reflexivity.
Qed.

Lemma round2_comp (a b : Q) : a == b -> round2 a == round2 b.
Proof.
  intros E. unfold round2.
  rewrite (Math_round_comp (a * 100) (b * 100)) by now rewrite E.
  reflexivity.
Qed.



Lemma js_rem_360_bounds (a : Q) :
  (0 <= a -> 0 <= js_rem a 360 < 360) /\
  (a < 0 -> -360 < js_rem a 360 <= 0).
Proof.
  unfold js_rem, Qtrunc.
  assert (E : a == 360 * (a / 360)) by (field).
  destruct (Qlt_le_dec (a / 360) 0) as [H|H]; split; intros Ha.
  - exfalso. lra.
  - pose proof (Qle_ceiling (a / 360)) as H1.
    pose proof (Qceiling_lt (a / 360)) as H2.
    unfold Z.sub in H2. rewrite inject_Z_plus, inject_Z_opp in H2.
    change (inject_Z 1) with 1 in H2. lra.
  - pose proof (Qfloor_le (a / 360)) as H1.
    pose proof (Qlt_floor (a / 360)) as H2.
    rewrite inject_Z_plus in H2. change (inject_Z 1) with 1 in H2. lra.
  - exfalso. lra.
Qed.

Lemma Math_round_bounds (x : Q) (lo hi : Z) :
  inject_Z lo <= x -> x <= inject_Z hi ->
  inject_Z lo <= Math_round x <= inject_Z hi.
Proof.
  intros Hlo Hhi. unfold Math_round. rewrite <- !Zle_Qle. split.
  - rewrite <- (Qfloor_Z lo). apply Qfloor_resp_le. lra.
  - assert (Qfloor (x + (1 # 2)) <= Qfloor (inject_Z hi + (1 # 2)))%Z
      by (apply Qfloor_resp_le; lra).
    assert (Qfloor (inject_Z hi + (1 # 2)) < hi + 1)%Z.
    { rewrite Zlt_Qlt, inject_Z_plus. change (inject_Z 1) with 1.
      pose proof (Qfloor_le (inject_Z hi + (1 # 2))). lra. }
    lia.
Qed.

Lemma wrap360_range (a : Q) : 0 <= wrap360 a <= 360.
Proof.
  unfold wrap360.
  destruct (js_rem_360_bounds a) as [Hp Hn].
  assert (D : 0 <= (if Qlt_le_dec (js_rem a 360) 0
                    then js_rem a 360 + 360 else js_rem a 360) < 360).
  { destruct (Qlt_le_dec (js_rem a 360) 0) as [H|H].
    - destruct (Qlt_le_dec a 0) as [Ha|Ha]; [specialize (Hn Ha)|specialize (Hp Ha)]; lra.
    - destruct (Qlt_le_dec a 0) as [Ha|Ha]; [specialize (Hn Ha)|specialize (Hp Ha)]; lra. }
  set (d := if Qlt_le_dec (js_rem a 360) 0 then _ else _) in *.
  destruct (Math_round_bounds (d * 10) 0 3600) as [H1 H2].
  - change (inject_Z 0) with 0. lra.
  - change (inject_Z 3600) with 3600. lra.
  - change (inject_Z 0) with 0 in H1. change (inject_Z 3600) with 3600 in H2.
    unfold Qdiv. change (/ 10) with (1 # 10). lra.
Qed.

(** ** The range of [wrap360] *)

(** What does hold of [wrap360]: the result is a whole number of tenths
    between 0 and 360, both included, and wrapping again changes nothing
    as long as the result is below 360. *)

Lemma Qfloor_unit (x : Q) : 0 <= x < 1 -> Qfloor x = 0%Z.
Proof.
  intros [H0 H1].
  pose proof (Qfloor_le x) as A. pose proof (Qlt_floor x) as B.
  rewrite inject_Z_plus in B. change (inject_Z 1) with 1 in B.
  assert (inject_Z (Qfloor x) < inject_Z 1) by (change (inject_Z 1) with 1; lra).
  assert (inject_Z (-1) < inject_Z (Qfloor x)) by (change (inject_Z (-1)) with (-1); lra).
  rewrite <- Zlt_Qlt in *. lia.
Qed.

Lemma Math_round_Z (k : Z) : Math_round (inject_Z k) = inject_Z k.
Proof.
  unfold Math_round. f_equal.
  pose proof (Qfloor_le (inject_Z k + (1 # 2))) as A.
  pose proof (Qlt_floor (inject_Z k + (1 # 2))) as B.
  rewrite inject_Z_plus in B. change (inject_Z 1) with 1 in B.
  set (f := Qfloor (inject_Z k + (1 # 2))) in *.
  assert (inject_Z f < inject_Z (k + 1)) by (rewrite inject_Z_plus; change (inject_Z 1) with 1; lra).
  assert (inject_Z (k - 1) < inject_Z f).
  { unfold Z.sub. rewrite inject_Z_plus, inject_Z_opp. change (inject_Z 1) with 1. lra. }
  rewrite <- Zlt_Qlt in *. lia.
Qed.

Lemma wrap360_tenths (a : Q) :
  exists k : Z, (0 <= k <= 3600)%Z /\ wrap360 a = inject_Z k / 10.
Proof.
  pose proof (wrap360_range a) as R.
  unfold wrap360 in *.
  set (d := if Qlt_le_dec (js_rem a 360) 0 then _ else _) in *.
  unfold Math_round in *.
  exists (Qfloor (d * 10 + (1 # 2))). split; [|reflexivity].
  unfold Qdiv in R. change (/ 10) with (1 # 10) in R.
  assert (inject_Z 0 <= inject_Z (Qfloor (d * 10 + (1 # 2))) <= inject_Z 3600).
  { change (inject_Z 0) with 0. change (inject_Z 3600) with 3600. lra. }
  rewrite <- !Zle_Qle in *. lia.
Qed.

Lemma wrap360_idempotent_below_360 (a : Q) :
  wrap360 a < 360 -> wrap360 (wrap360 a) == wrap360 a.
Proof.
  intros H. destruct (wrap360_tenths a) as [k [[K0 K1] E]].
  rewrite E in *. clear E.
  assert (K : (k < 3600)%Z).
  { unfold Qdiv in H. change (/ 10) with (1 # 10) in H.
    assert (inject_Z k < inject_Z 3600) by (change (inject_Z 3600) with 3600; lra).
    rewrite <- Zlt_Qlt in *. lia. }
  assert (Q0 : 0 <= inject_Z k) by (change 0 with (inject_Z 0); rewrite <- Zle_Qle; lia).
  assert (Q1 : inject_Z k < 3600) by (change 3600 with (inject_Z 3600); rewrite <- Zlt_Qlt; lia).
  set (w := inject_Z k / 10).
  assert (W : w == inject_Z k * (1 # 10)) by reflexivity.
  assert (J : js_rem w 360 == w).
  { unfold js_rem, Qtrunc.
    assert (U : w / 360 == inject_Z k * (1 # 3600)) by (unfold w; field).
    destruct (Qlt_le_dec (w / 360) 0) as [N|N]; [exfalso; lra|].
    rewrite (Qfloor_unit (w / 360)) by lra.
    change (inject_Z 0) with 0. ring. }
  unfold wrap360.
  destruct (Qlt_le_dec (js_rem w 360) 0) as [N|N]; [exfalso; lra|].
  rewrite (Math_round_comp (js_rem w 360 * 10) (inject_Z k))
    by (rewrite J; unfold w; field).
  rewrite Math_round_Z. reflexivity.
Qed.


(** C5. [wrap360] rounds after it has reduced to [0,360), so the degrees
    from 359.95 up come out as 360.0: at 359.96875 the result is 360, it is
    not below 360, wrapping it once more gives 0 and not 360, and a heading
    read at that value shows as 360 in the fused status. *)
Theorem wrap360_rounds_up_to_360 :
  wrap360 Sample.just_below_360 == 360 /\
  ~ wrap360 Sample.just_below_360 < 360 /\
  wrap360 (wrap360 Sample.just_below_360) == 0 /\
  ~ wrap360 (wrap360 Sample.just_below_360) == wrap360 Sample.just_below_360 /\
  oQeq (HtsBodApb.headingMagDeg
          (HtsBodApb.best
             (HtsBodApb.computeStatus
                (Sample.env_one "navigation.headingMagnetic"
                                Sample.just_below_360)
                HtsBodApb.default_paths 5)))
       (Some 360) /\
  oQeq (HtsBod.getHeadingMagDeg
          (Sample.env_one "navigation.headingMagnetic" Sample.just_below_360)
          "navigation.headingMagnetic")
       (Some 360).
Proof.
  repeat split; try (vm_compute; congruence).
Qed.

(** ** Strings *)

Lemma length_app (a b : string) :
  String.length (a ++ b) = (String.length a + String.length b)%nat.
Proof. induction a as [|c a IH]; simpl; [reflexivity | now rewrite IH]. Qed.



Lemma substring_whole (s : string) : substring 0 (String.length s) s = s.
Proof. induction s as [|c s IH]; simpl; [reflexivity | now rewrite IH]. Qed.

Lemma forall_filter_string (p : ascii -> bool) (s : string) :
  forall_string p (filter_string p s) = true.
Proof.
  induction s as [|c s IH]; simpl; [reflexivity|].
  destruct (p c) eqn:E; simpl; [rewrite E|]; assumption.
Qed.

(** ** The checksum *)

Lemma lxor_below_256 (a b : N) :
  (a < 256 -> b < 256 -> N.lxor a b < 256)%N.
Proof.
  intros Ha Hb.
  assert (L : forall x : N, (x < 256 -> N.log2 x < 8)%N).
  { intros x Hx. destruct (N.eq_dec x 0) as [->|Nz]; [reflexivity|].
    apply N.log2_lt_pow2; [lia | exact Hx]. }
  destruct (N.eq_dec (N.lxor a b) 0) as [E|Nz]; [rewrite E; reflexivity|].
  change 256%N with (2 ^ 8)%N. apply N.log2_lt_pow2; [lia|].
  pose proof (N.log2_lxor a b). pose proof (L a Ha). pose proof (L b Hb). lia.
Qed.

Lemma xor_codes_below_256 (s : string) (c : N) :
  (c < 256 -> xor_codes s c < 256)%N.
Proof.
  revert c. induction s as [|a s IH]; simpl; intros c Hc; [exact Hc|].
  apply IH, lxor_below_256; [exact Hc | apply N_ascii_bounded].
Qed.

Lemma checksum_digits_of_ascii (a : ascii) :
  two_upper_hex_digits_of (N_of_ascii a) (checksum_digits (N_of_ascii a))
  = true.
Proof.
  destruct a as [[] [] [] [] [] [] [] []]; vm_compute; reflexivity.
Qed.

Lemma checksum_digits_byte (c : N) :
  (c < 256)%N ->
  two_upper_hex_digits_of c (checksum_digits c) = true.
Proof.
  intros H. rewrite <- (N_ascii_embedding c H).
  apply checksum_digits_of_ascii.
Qed.

Lemma addChecksum_dollar (body : string) :
  exists h1 h2 : ascii,
    addChecksum ("$" ++ body)
    = "$" ++ body ++ "*" ++ String h1 (String h2 "") ++ CRLF /\
    upper_hex_value h1 = Some (xor_codes body 0 / 16)%N /\
    upper_hex_value h2 = Some (xor_codes body 0 mod 16)%N.
Proof.
  unfold addChecksum.
  assert (E : substring 1 (String.length ("$" ++ body) - 1) ("$" ++ body)
              = body).
  { simpl. rewrite Nat.sub_0_r. apply substring_whole. }
  rewrite E.
  pose proof (checksum_digits_byte (xor_codes body 0)
                (xor_codes_below_256 body 0 eq_refl)) as H.
  unfold checksum_digits in H.
  destruct (padStart 2 "0" (toUpperCase (toString16 (xor_codes body 0))))
    as [|h1 [|h2 [|? ?]]]; simpl in H; try discriminate.
  destruct (upper_hex_value h1) as [v1|] eqn:E1; try discriminate.
  destruct (upper_hex_value h2) as [v2|] eqn:E2; try discriminate.
  apply andb_true_iff in H. destruct H as [H1 H2].
  apply N.eqb_eq in H1, H2. subst v1 v2.
  exists h1, h2. split; [|split; assumption].
  cbn [append]. reflexivity.
Qed.


(** ** Sentences *)


Lemma substring_0_2 (a b : ascii) (r : string) :
  substring 0 2 (String a (String b r)) = String a (String b "").
Proof. simpl. destruct r; reflexivity. Qed.

(** C10. [sanitizeTalker] always answers with two characters, each an
    upper-case letter or a digit: the first two of the upper-cased input
    without its other characters when there are at least two, and [II]
    when there are fewer; null, undefined and the empty string count as
    [II]. *)
Theorem sanitizeTalker_two_upper_alnum (t : option string) :
  let input := match t with
               | Some s => if String.eqb s "" then "II" else s
               | None => "II"
               end in
  let up := strip_non_A_Z_0_9 (toUpperCase input) in
  String.length (sanitizeTalker t) = 2%nat /\
  forall_string (fun c => is_upper c || is_digit c) (sanitizeTalker t) = true /\
  ((2 <= String.length up)%nat -> sanitizeTalker t = substring 0 2 up) /\
  ((String.length up < 2)%nat -> sanitizeTalker t = "II").
Proof.
  intros input up.
  assert (F : forall_string (fun c => is_upper c || is_digit c) up = true)
    by apply forall_filter_string.
  change (sanitizeTalker t)
    with (if (2 <=? String.length up)%nat then substring 0 2 up else "II").
  clearbody up. clear input.
  destruct (Nat.leb_spec 2 (String.length up)) as [H|H].
  - destruct up as [|a [|b r]]; simpl in H; try lia.
    rewrite substring_0_2. simpl in F.
    apply andb_true_iff in F. destruct F as [Fa F].
    apply andb_true_iff in F. destruct F as [Fb _].
    repeat split.
    + simpl. rewrite Fa, Fb. reflexivity.
    + intros C. simpl in C. lia.
  - repeat split. intros C. lia.
Qed.

(** C10, at three inputs: a long lower-case name, one with a single
    usable character, and null. *)
Lemma sanitizeTalker_two_upper_alnum_witness :
  sanitizeTalker (Some "gps-1") = "GP" /\
  sanitizeTalker (Some "g-") = "II" /\
  sanitizeTalker None = "II".
Proof.
  pose proof (sanitizeTalker_two_upper_alnum (Some "gps-1")) as [_ [_ [A _]]].
  pose proof (sanitizeTalker_two_upper_alnum (Some "g-")) as [_ [_ [_ B]]].
  pose proof (sanitizeTalker_two_upper_alnum None) as [_ [_ [C _]]].
  split; [|split].
  - rewrite A; [reflexivity | simpl; lia].
  - rewrite B; [reflexivity | simpl; lia].
  - rewrite C; [reflexivity | simpl; lia].
Defined.

(** ** Commands *)

Module CommandFacts.

Import HtsBodApb.

(** For [hold_rhumb] only its own block of the handler fires. *)
Lemma cmd_hold_rhumb (cfg : Config) (env : Env) (n : number) (s : State) :
  cmd cfg env "hold_rhumb" n s
  = do_hold_rhumb (computeStatus env (PATHS cfg) (gpsStaleSeconds cfg)) s.
Proof. reflexivity. Qed.

(** For [set_heading] only its own block of the handler fires. *)
Lemma cmd_set_heading (cfg : Config) (env : Env) (n : number) (s : State) :
  cmd cfg env "set_heading" n s = do_set_heading n s.
Proof. reflexivity. Qed.

(** C7. [hold_rhumb] without its precondition (no position, or a position
    that is not fresh, or neither a magnetic course nor a magnetic heading)
    leaves every variable of the plugin as it was; so a track that was not
    active stays inactive. *)
Theorem hold_rhumb_without_precondition_is_noop
    (cfg : Config) (env : Env) (n : number) (s : State) :
  let b := best (computeStatus env (PATHS cfg) (gpsStaleSeconds cfg)) in
  best_position b = None \/ positionFresh b = false \/
  (cogMagDeg b = None /\ headingMagDeg b = None) ->
  cmd cfg env "hold_rhumb" n s = s /\
  (trackActive s = false ->
   trackActive (cmd cfg env "hold_rhumb" n s) = false).
Proof.
  intros b H.
  assert (E : cmd cfg env "hold_rhumb" n s = s).
  { rewrite cmd_hold_rhumb. unfold do_hold_rhumb. fold b.
    destruct H as [H | [H | [H1 H2]]].
    - rewrite H. reflexivity.
    - rewrite H. destruct (best_position b); reflexivity.
    - rewrite H1, H2.
      destruct (best_position b), (positionFresh b); reflexivity. }
  split; [exact E | now rewrite E].
Qed.

(** C7, with a position that is a minute old: the request changes
    nothing. *)
Lemma hold_rhumb_without_precondition_is_noop_witness :
  positionFresh
    (best (computeStatus Sample.env_stale (PATHS Sample.cfg0)
             (gpsStaleSeconds Sample.cfg0))) = false /\
  cmd Sample.cfg0 Sample.env_stale "hold_rhumb" NaN initial = initial /\
  trackActive (cmd Sample.cfg0 Sample.env_stale "hold_rhumb" NaN initial)
  = false.
Proof.
  assert (F : positionFresh
                (best (computeStatus Sample.env_stale (PATHS Sample.cfg0)
                         (gpsStaleSeconds Sample.cfg0))) = false)
    by (vm_compute; reflexivity).
  destruct (hold_rhumb_without_precondition_is_noop
              Sample.cfg0 Sample.env_stale NaN initial
              (or_intror (or_introl F))) as [E T].
  split; [exact F | split; [exact E | exact (T eq_refl)]].
Defined.

(** C8. [set_heading] with a finite number sets the target to its
    [wrap360], the mode to BOD and the track flag to false, and touches
    nothing else; 400 gives 40; with a number that is not finite (NaN or
    an infinity) nothing changes.  The [set] command of the BOD-only plugin
    does the same to its target. *)
Theorem set_heading_effect (cfg : Config) (env : Env) (n : number)
    (s : State) (cfgb : HtsBod.Config) (sb : HtsBod.State) :
  match n with
  | Num q =>
      let s' := cmd cfg env "set_heading" n s in
      targetMagDeg s' = Some (wrap360 q) /\
      mode s' = BOD /\
      trackActive s' = false /\
      enabled s' = enabled s /\
      trackStart s' = trackStart s /\
      trackBearingMagDeg s' = trackBearingMagDeg s /\
      trackBearingTrueDeg s' = trackBearingTrueDeg s /\
      trackName s' = trackName s /\
      HtsBod.targetMagDeg (HtsBod.cmd cfgb env "set" n sb)
      = Some (wrap360 q) /\
      HtsBod.enabled (HtsBod.cmd cfgb env "set" n sb) = HtsBod.enabled sb
  | _ =>
      cmd cfg env "set_heading" n s = s /\
      HtsBod.cmd cfgb env "set" n sb = sb
  end /\
  (isFinite n = false ->
   cmd cfg env "set_heading" n s = s /\ HtsBod.cmd cfgb env "set" n sb = sb) /\
  oQeq (targetMagDeg (cmd cfg env "set_heading" (Num 400) s)) (Some 40) /\
  trackActive (cmd cfg env "set_heading" (Num 400) s) = false.
Proof.
  split; [|split].
  - destruct n as [q| |neg].
    + rewrite cmd_set_heading. cbn. repeat split; reflexivity.
    + split; reflexivity.
    + split; reflexivity.
  - destruct n as [q| |neg]; simpl; intros F;
      [discriminate | split; reflexivity | split; reflexivity].
  - rewrite cmd_set_heading. split; [|reflexivity].
    cbn [do_set_heading targetMagDeg set_trackActive set_mode
         set_targetMagDeg oQeq].
    exact wrap360_400.
Qed.

(** C8, with NaN for the number and a track that is active: nothing
    changes; and with 400 the track is switched off. *)
Lemma set_heading_effect_witness :
  let s := cmd Sample.cfg0 Sample.env_underway "hold_rhumb" NaN initial in
  trackActive s = true /\
  cmd Sample.cfg0 Sample.env_underway "set_heading" NaN s = s /\
  trackActive (cmd Sample.cfg0 Sample.env_underway "set_heading" (Num 400) s)
  = false.
Proof.
  intros s.
  destruct (set_heading_effect Sample.cfg0 Sample.env_underway NaN s
              {| HtsBod.talker := "II";
                 HtsBod.headingPath := "navigation.headingMagnetic";
                 HtsBod.variationPath := "navigation.magneticVariation";
                 HtsBod.destinationId := "DEST";
                 HtsBod.originId := "ORIG" |} HtsBod.initial)
    as [_ [N [_ T]]].
  split; [vm_compute; reflexivity | split; [exact (proj1 (N eq_refl)) | exact T]].
Defined.

(** *** The track invariant *)

Lemma inactive_has_fields (s : State) :
  trackActive s = false -> track_active_has_fields s.
Proof. intros E A. congruence. Qed.

Lemma keeps_when (b : bool) (f : State -> State) : keeps f -> keeps (when b f).
Proof. intros Hf s Hs. destruct b; simpl; auto. Qed.

Lemma keeps_set_enabled (b : bool) : keeps (set_enabled b).
Proof. intros s Hs. exact Hs. Qed.

Lemma keeps_set_mode (m : Mode) : keeps (set_mode m).
Proof. intros s Hs. exact Hs. Qed.

Lemma keeps_set_targetMagDeg (t : option Q) : keeps (set_targetMagDeg t).
Proof. intros s Hs. exact Hs. Qed.

Lemma keeps_do_hold_heading (st : Status) : keeps (do_hold_heading st).
Proof.
  intros s Hs. unfold do_hold_heading.
  destruct (headingMagDeg (best st)); [|exact Hs].
  apply inactive_has_fields. reflexivity.
Qed.

Lemma keeps_do_set_heading (n : number) : keeps (do_set_heading n).
Proof.
  intros s Hs. destruct n; simpl; try exact Hs.
  apply inactive_has_fields. reflexivity.
Qed.

Lemma keeps_do_hold_rhumb (st : Status) : keeps (do_hold_rhumb st).
Proof.
  intros s Hs. unfold do_hold_rhumb.
  destruct (best_position (best st)); [|exact Hs].
  destruct (positionFresh (best st)); [|exact Hs].
  destruct (match cogMagDeg (best st) with
            | Some b => Some b
            | None => headingMagDeg (best st)
            end); [|exact Hs].
  intros _. split; cbn; discriminate.
Qed.

Lemma keeps_do_stop_track : keeps do_stop_track.
Proof. intros s Hs. apply inactive_has_fields. reflexivity. Qed.

Lemma keeps_adjust_heading (delta : Q) : keeps (adjust_heading delta).
Proof.
  intros s Hs. unfold adjust_heading.
  destruct (mode s), (targetMagDeg s); exact Hs.
Qed.

Lemma keeps_adjust_track (st : Status) (delta : Q) :
  keeps (adjust_track st delta).
Proof.
  intros s Hs. unfold adjust_track.
  destruct (mode s); [exact Hs|].
  destruct (trackActive s) eqn:A; [|exact Hs].
  destruct (trackBearingMagDeg s) eqn:B; [|exact Hs].
  intros _. destruct (Hs A) as [S0 _].
  split; cbn; [exact S0 | discriminate].
Qed.

Lemma keeps_do_adjust (st : Status) (delta : Q) : keeps (do_adjust st delta).
Proof.
  intros s Hs. unfold do_adjust. destruct (Qeq_bool delta 0); [exact Hs|].
  apply keeps_adjust_track, keeps_adjust_heading, Hs.
Qed.

Create HintDb track discriminated.

#[local] Hint Resolve keeps_when keeps_set_enabled keeps_set_mode
  keeps_set_targetMagDeg keeps_do_hold_heading keeps_do_set_heading
  keeps_do_hold_rhumb keeps_do_stop_track keeps_do_adjust : track.

Lemma keeps_cmd (cfg : Config) (env : Env) (c : string) (n : number) :
  keeps (cmd cfg env c n).
Proof.
  intros s Hs. unfold cmd. cbv zeta.
  apply keeps_do_adjust.
  repeat (apply keeps_when; [auto with track|]).
  exact Hs.
Qed.

Lemma keeps_commands (cfg : Config) (rs : list Request) :
  keeps (commands cfg rs).
Proof.
  induction rs as [|[[env c] n] rs IH]; intros s Hs; simpl.
  - exact Hs.
  - apply IH, keeps_cmd, Hs.
Qed.

(** C2, as the code has it.  After any sequence of requests from the
    declared variables, an active track has its start position and its
    magnetic bearing. *)
Theorem active_track_has_start_and_bearing
    (cfg : Config) (rs : list Request) :
  let s := commands cfg rs initial in
  trackActive s = true ->
  trackStart s <> None /\ trackBearingMagDeg s <> None.
Proof.
  intros s. apply (keeps_commands cfg rs initial).
  apply inactive_has_fields. reflexivity.
Qed.

(** C2, after a [hold_rhumb] with a fresh position and a heading. *)
Lemma active_track_has_start_and_bearing_witness :
  let s := commands Sample.cfg0
             [(Sample.env_underway, "hold_rhumb", NaN)] initial in
  trackActive s = true /\
  trackStart s <> None /\ trackBearingMagDeg s <> None.
Proof.
  intros s.
  assert (A : trackActive s = true) by (vm_compute; reflexivity).
  split; [exact A|].
  exact (active_track_has_start_and_bearing Sample.cfg0
           [(Sample.env_underway, "hold_rhumb", NaN)] A).
Defined.

(** C2, as stated, fails: [hold_rhumb] and then [set_heading] leave the
    track inactive with its start and its bearing still set. *)
Lemma inactive_track_keeps_start_and_bearing :
  let s := commands Sample.cfg0
             [(Sample.env_underway, "hold_rhumb", NaN);
              (Sample.env_underway, "set_heading", Num 10)] initial in
  trackActive s = false /\ track_fields_set s /\
  ~ track_active_iff_fields s.
Proof.
  intros s.
  assert (A : trackActive s = false) by (vm_compute; reflexivity).
  assert (F : track_fields_set s) by (split; vm_compute; discriminate).
  split; [exact A | split; [exact F|]].
  intros [_ I]. specialize (I F). congruence.
Qed.

(** ** The scheduler *)

Section Scheduler.

Variable Math_sin : Q -> Q.
Variable Math_cos : Q -> Q.

Lemma tick_silent (cfg : Config) (env : Env) (s : State) :
  let st := computeStatus env (PATHS cfg) (gpsStaleSeconds cfg) in
  enabled s = false \/
  (mode s = BOD /\ targetMagDeg s = None) \/
  (mode s = APB /\
   (trackActive s = false \/ positionFresh (best st) = false)) ->
  tick Math_sin Math_cos cfg env s = (set_lastStatus (Some st) s, None).
Proof.
  intros st H. unfold tick. fold st.
  cbn [enabled mode targetMagDeg trackActive trackStart trackBearingMagDeg
       set_lastStatus].
  destruct H as [E | [[M T] | [M [A | F]]]].
  - rewrite E. reflexivity.
  - rewrite M, T. destruct (enabled s); reflexivity.
  - rewrite M, A. destruct (enabled s); reflexivity.
  - rewrite M, F.
    destruct (enabled s), (trackActive s), (trackStart s),
             (trackBearingMagDeg s); reflexivity.
Qed.

(** C1. In every state the plugin can reach, a tick hands nothing to the
    sink (and records no sentence) when output is disabled, or the mode is
    BOD and there is no target heading, or the mode is APB and the track is
    not active or the position is not fresh; the tick only stores the
    status it has computed. *)
Theorem tick_never_emits_without_valid_target
    (o : Options) (s : State) (env : Env) :
  reachable Math_sin Math_cos o s ->
  let cfg := config_of o in
  let st := computeStatus env (PATHS cfg) (gpsStaleSeconds cfg) in
  enabled s = false \/
  (mode s = BOD /\ targetMagDeg s = None) \/
  (mode s = APB /\
   (trackActive s = false \/ positionFresh (best st) = false)) ->
  snd (tick Math_sin Math_cos cfg env s) = None /\
  fst (tick Math_sin Math_cos cfg env s) = set_lastStatus (Some st) s /\
  lastSentence (fst (tick Math_sin Math_cos cfg env s)) = lastSentence s.
Proof.
  intros _ cfg st H.
  rewrite (tick_silent cfg env s H). repeat split.
Qed.

End Scheduler.

(** C1, in three reachable states: just started; enabled in BOD with no
    target; enabled in APB with an active track and a position that has
    gone stale. *)
Lemma tick_never_emits_without_valid_target_witness :
  let sin0 := fun _ : Q => 0 in
  let cos0 := fun _ : Q => 1 in
  let o := Sample.no_options in
  let s0 := start o initial in
  let s1 := step sin0 cos0 (config_of o) s0
              (Command Sample.env_underway "enable" NaN) in
  let s2 := step sin0 cos0 (config_of o) s1
              (Command Sample.env_underway "hold_rhumb" NaN) in
  snd (tick sin0 cos0 (config_of o) Sample.env_underway s0) = None /\
  snd (tick sin0 cos0 (config_of o) Sample.env_underway s1) = None /\
  snd (tick sin0 cos0 (config_of o) Sample.env_stale s2) = None /\
  snd (tick sin0 cos0 (config_of o) Sample.env_underway s2) <> None.
Proof.
  intros sin0 cos0 o s0 s1 s2.
  assert (R0 : reachable sin0 cos0 o s0) by apply reach_start.
  assert (R1 : reachable sin0 cos0 o s1) by (apply reach_step, R0).
  assert (R2 : reachable sin0 cos0 o s2) by (apply reach_step, R1).
  split; [|split; [|split]].
  - apply (tick_never_emits_without_valid_target sin0 cos0 o s0
             Sample.env_underway R0).
    left. reflexivity.
  - apply (tick_never_emits_without_valid_target sin0 cos0 o s1
             Sample.env_underway R1).
    right. left. split; reflexivity.
  - apply (tick_never_emits_without_valid_target sin0 cos0 o s2
             Sample.env_stale R2).
    right. right. split; [reflexivity | right; vm_compute; reflexivity].
  - vm_compute. discriminate.
Defined.

End CommandFacts.


(** ** Fusion of the readings *)

Module FusionFacts.

Import HtsBodApb.

Lemma forall_string_app (p : ascii -> bool) (a b : string) :
  forall_string p (a ++ b) = forall_string p a && forall_string p b.
Proof.
  induction a as [|c a IH]; simpl; [reflexivity|].
  rewrite IH. apply andb_assoc.
Qed.

Lemma no_space_not_tagged (p q tag : string) :
  no_space p = true -> no_space tag = false -> p <> q ++ tag.
Proof.
  intros Hp Ht E. unfold no_space in *. rewrite E, forall_string_app in Hp.
  rewrite Ht, andb_false_r in Hp. discriminate.
Qed.







(** The COG part of [computeStatus] as a table of its four readings. *)
Lemma computeStatus_cog (env : Env) (P : Paths) (gps : Q) :
  let b := best (computeStatus env P gps) in
  (cogMagDeg b, cogMagSource b) =
  match readAngleDeg env (cogMag P), readAngleDeg env (cogTrue P),
        readAngleDeg env (variation P), readAngleDeg env (hdgMag P) with
  | Some m, _, _, _ => (Some m, Some (cogMag P))
  | None, Some t, Some v, _ =>
      (Some (wrap360 (t - v)), Some (cogTrue P ++ " + variation"))
  | None, _, _, Some h => (Some h, Some (hdgMag P ++ " (fallback)"))
  | None, _, _, None => (None, None)
  end.
Proof.
  unfold computeStatus.
  destruct (readAngleDeg env (cogMag P)) as [m|],
           (readAngleDeg env (cogTrue P)) as [t|],
           (readAngleDeg env (variation P)) as [v|],
           (readAngleDeg env (hdgMag P)) as [h|],
           (readAngleDeg env (hdgTrue P)) as [ht|]; reflexivity.
Qed.

(** C4. The fused magnetic course is the direct magnetic reading when
    there is one; else [wrap360 (cogTrue - variation)] when both are read,
    tagged with the true-course path and [ + variation]; else the magnetic
    heading reading, tagged with its path and [ (fallback)]; else null with
    no tag.  A path without a space, as the direct tag, differs from both
    other tags.  With no magnetic course, a true course of 90 and a
    variation of 5 the fused course is 85, tagged as derived. *)
Theorem cog_magnetic_fallback_order (env : Env) (P : Paths) (gps : Q) :
  let b := best (computeStatus env P gps) in
  (cogMagDeg b, cogMagSource b) =
  match readAngleDeg env (cogMag P), readAngleDeg env (cogTrue P),
        readAngleDeg env (variation P), readAngleDeg env (hdgMag P) with
  | Some m, _, _, _ => (Some m, Some (cogMag P))
  | None, Some t, Some v, _ =>
      (Some (wrap360 (t - v)), Some (cogTrue P ++ " + variation"))
  | None, _, _, Some h => (Some h, Some (hdgMag P ++ " (fallback)"))
  | None, _, _, None => (None, None)
  end /\
  (no_space (cogMag P) = true ->
   cogMag P <> cogTrue P ++ " + variation" /\
   cogMag P <> hdgMag P ++ " (fallback)") /\
  no_space (cogMag default_paths) = true /\
  (readAngleDeg env (cogMag P) = None ->
   oQeq (readAngleDeg env (cogTrue P)) (Some 90) ->
   oQeq (readAngleDeg env (variation P)) (Some 5) ->
   oQeq (cogMagDeg b) (Some 85) /\
   cogMagSource b = Some (cogTrue P ++ " + variation")).
Proof.
  intros b. pose proof (computeStatus_cog env P gps) as T. fold b in T.
  cbv zeta in T.
  split; [exact T | split; [|split; [reflexivity|]]].
  - intros N. split; apply no_space_not_tagged; auto.
  - intros M Ct Va. rewrite M in T.
    destruct (readAngleDeg env (cogTrue P)) as [t|]; [|contradiction].
    destruct (readAngleDeg env (variation P)) as [v|]; [|contradiction].
    cbn [oQeq] in Ct, Va.
    pose proof (f_equal fst T) as T1. pose proof (f_equal snd T) as T2.
    cbn [fst snd] in T1, T2. rewrite T1, T2. split; [|reflexivity].
    cbn [oQeq]. transitivity (wrap360 (90 - 5)); [|reflexivity].
    apply wrap360_comp. rewrite Ct, Va. reflexivity.
Qed.

(** C4, with a provider that reads a true course of 90 degrees and a
    variation of 5 degrees and nothing else. *)
Lemma cog_magnetic_fallback_order_witness :
  let b := best (computeStatus Sample.env_true_course default_paths 5) in
  oQeq (cogMagDeg b) (Some 85) /\
  cogMagSource b = Some "navigation.courseOverGroundTrue + variation" /\
  cogMag default_paths <> cogTrue default_paths ++ " + variation".
Proof.
  intros b.
  destruct (cog_magnetic_fallback_order Sample.env_true_course
              default_paths 5) as [_ [D [N X]]].
  destruct X as [X1 X2].
  - vm_compute. reflexivity.
  - vm_compute. reflexivity.
  - vm_compute. reflexivity.
  - split; [exact X1 | split; [exact X2 | exact (proj1 (D N))]].
Defined.

End FusionFacts.

(** ** Cross-track distance *)

Module TrackFacts.

Import HtsBodApb.

Section Trigonometry.

Variable Math_sin : Q -> Q.
Variable Math_cos : Q -> Q.





End Trigonometry.


End TrackFacts.

(** * Further properties *)

(** ** The arithmetic of [wrap360] *)

Module WrapFacts.

Lemma Qfloor_bounds (x : Q) : inject_Z (Qfloor x) <= x < inject_Z (Qfloor x) + 1.
Proof.
  pose proof (Qfloor_le x). pose proof (Qlt_floor x) as B.
  rewrite inject_Z_plus in B. change (inject_Z 1) with 1 in B. lra.
Qed.

Lemma Qfloor_unique (x : Q) (n : Z) :
  inject_Z n <= x < inject_Z n + 1 -> Qfloor x = n.
Proof.
  intros [L U]. pose proof (Qfloor_bounds x) as [A B].
  assert (inject_Z (Qfloor x) < inject_Z (n + 1))
    by (rewrite inject_Z_plus; change (inject_Z 1) with 1; lra).
  assert (inject_Z n < inject_Z (Qfloor x + 1))
    by (rewrite inject_Z_plus; change (inject_Z 1) with 1; lra).
  rewrite <- Zlt_Qlt in *. lia.
Qed.

Lemma Qceiling_bounds (x : Q) :
  inject_Z (Qceiling x) - 1 < x <= inject_Z (Qceiling x).
Proof.
  pose proof (Qle_ceiling x). pose proof (Qceiling_lt x) as B.
  unfold Z.sub in B. rewrite inject_Z_plus, inject_Z_opp in B.
  change (inject_Z 1) with 1 in B. lra.
Qed.

Lemma sign_fixed_rem (a : Q) :
  (if Qlt_le_dec (js_rem a 360) 0 then js_rem a 360 + 360 else js_rem a 360)
  == floor_mod_360 a.
Proof.
  unfold floor_mod_360.
  assert (E : a == 360 * (a / 360)) by field.
  pose proof (Qfloor_bounds (a / 360)) as [F1 F2].
  destruct (Qlt_le_dec (js_rem a 360) 0) as [H|H]; unfold js_rem, Qtrunc in *;
    destruct (Qlt_le_dec (a / 360) 0) as [N|N].
  - pose proof (Qceiling_bounds (a / 360)) as [C1 C2].
    assert (Qfloor (a / 360) = (Qceiling (a / 360) - 1)%Z) as ->.
    { apply Qfloor_unique. unfold Z.sub.
      rewrite inject_Z_plus, inject_Z_opp. change (inject_Z 1) with 1. lra. }
    unfold Z.sub. rewrite inject_Z_plus, inject_Z_opp.
    change (inject_Z 1) with 1. ring.
  - exfalso. lra.
  - pose proof (Qceiling_bounds (a / 360)) as [C1 C2].
    assert (Qfloor (a / 360) = Qceiling (a / 360)) as ->.
    { apply Qfloor_unique. lra. }
    reflexivity.
  - reflexivity.
Qed.

Lemma wrap360_floor_mod (a : Q) :
  wrap360 a == Math_round (floor_mod_360 a * 10) / 10.
Proof.
  unfold wrap360.
  rewrite (Math_round_comp _ (floor_mod_360 a * 10))
    by (rewrite sign_fixed_rem; reflexivity).
  reflexivity.
Qed.

Lemma floor_mod_360_shift (a : Q) (m : Z) :
  floor_mod_360 (a + 360 * inject_Z m) == floor_mod_360 a.
Proof.
  unfold floor_mod_360.
  pose proof (Qfloor_bounds (a / 360)) as [F1 F2].
  assert (Qfloor ((a + 360 * inject_Z m) / 360) = (Qfloor (a / 360) + m)%Z) as ->.
  { apply Qfloor_unique. rewrite inject_Z_plus.
    assert ((a + 360 * inject_Z m) / 360 == a / 360 + inject_Z m) as -> by field.
    lra. }
  rewrite inject_Z_plus. ring.
Qed.

Lemma floor_mod_360_comp (a b : Q) : a == b -> floor_mod_360 a == floor_mod_360 b.
Proof.
  intros E. unfold floor_mod_360.
  rewrite (Qfloor_comp (a / 360) (b / 360)) by now rewrite E.
  now rewrite E.
Qed.

Lemma wrap360_shift (a : Q) (m : Z) :
  wrap360 (a + 360 * inject_Z m) == wrap360 a.
Proof.
  rewrite !wrap360_floor_mod.
  rewrite (Math_round_comp _ (floor_mod_360 a * 10))
    by (rewrite floor_mod_360_shift; reflexivity).
  reflexivity.
Qed.

(** On whole tenths [wrap360] does not round. *)
Lemma wrap360_on_tenths (t : Q) (k : Z) :
  t == inject_Z k / 10 -> wrap360 t == floor_mod_360 t.
Proof.
  intros E. rewrite wrap360_floor_mod.
  assert (F : floor_mod_360 t * 10
              == inject_Z (k - 3600 * Qfloor (t / 360))).
  { unfold floor_mod_360, Z.sub.
    rewrite inject_Z_plus, inject_Z_opp, inject_Z_mult. rewrite E at 1.
    change (inject_Z 3600) with 3600. field. }
  rewrite (Math_round_comp _ _ F), Math_round_Z, <- F. field.
Qed.

Lemma wrap360_add_wrapped (t b : Q) (k : Z) :
  t == inject_Z k / 10 -> wrap360 (wrap360 t + b) == wrap360 (t + b).
Proof.
  intros E. 
  assert (W : wrap360 t + b == (t + b) + 360 * inject_Z (- Qfloor (t / 360))).
  { rewrite (wrap360_on_tenths t k E). unfold floor_mod_360.
    rewrite inject_Z_opp. ring. }
  rewrite (wrap360_comp _ _ W). apply wrap360_shift.
Qed.



Lemma whole_tenths_wrap360 (a : Q) : whole_tenths (wrap360 a).
Proof.
  destruct (wrap360_tenths a) as [k [K E]]. exists k. split; [exact K|].
  rewrite E. reflexivity.
Qed.

End WrapFacts.

(** ** The numeric fields of the sentences *)

Module FormatFacts.

Lemma forallb_below (f : N -> bool) (b : nat) :
  forallb f (map N.of_nat (seq 0 b)) = true ->
  forall n : N, (n < N.of_nat b)%N -> f n = true.
Proof.
  intros H n Hn. rewrite forallb_forall in H. apply H.
  apply in_map_iff. exists (N.to_nat n). split; [apply N2Nat.id|].
  apply in_seq. lia.
Qed.

Lemma toFixed_same (f : nat) (x y : Q) :
  0 <= x -> 0 <= y ->
  Qfloor (Qabs x * inject_Z (pow10 f) + (1 # 2))
  = Qfloor (Qabs y * inject_Z (pow10 f) + (1 # 2)) ->
  toFixed f x = toFixed f y.
Proof.
  intros Hx Hy E. unfold toFixed.
  destruct (Qlt_le_dec x 0) as [N|_]; [exfalso; lra|].
  destruct (Qlt_le_dec y 0) as [N|_]; [exfalso; lra|].
  rewrite E. reflexivity.
Qed.

Lemma fmtDeg_digits_check :
  forallb (fun k => String.eqb
                      (padStart 5 "0" (toFixed 1 (inject_Z (Z.of_N k) / 10)))
                      (ddd_d k))
          (map N.of_nat (seq 0 3601)) = true.
Proof. vm_compute. reflexivity. Qed.

Lemma fmtDeg_shape (a : Q) :
  exists k : N,
    (k <= 3600)%N /\
    wrap360 a == inject_Z (Z.of_N k) / 10 /\
    fmtDeg a = ddd_d k /\
    String.length (fmtDeg a) = 5%nat.
Proof.
  destruct (wrap360_tenths a) as [k [[K0 K1] E]].
  exists (Z.to_N k). rewrite Z2N.id by exact K0.
  assert (F : fmtDeg a = ddd_d (Z.to_N k)).
  { unfold fmtDeg. cbv zeta. rewrite E.
    pose proof (forallb_below _ 3601 fmtDeg_digits_check (Z.to_N k)) as C.
    cbv beta in C. rewrite Z2N.id in C by exact K0.
    apply String.eqb_eq, C. lia. }
  split; [lia | split; [rewrite E; reflexivity | split; [exact F|]]].
  rewrite F. reflexivity.
Qed.

(** X2. [fmtDeg] always gives five characters, three digits, a point and
    a digit, and they are the decimal digits of [wrap360] of the angle
    counted in tenths (so the field reads back as that angle; 360.0 is
    among the fields it can give). *)
Theorem fmtDeg_fixed_width (a : Q) :
  exists k : N,
    (k <= 3600)%N /\
    wrap360 a == inject_Z (Z.of_N k) / 10 /\
    fmtDeg a = ddd_d k /\
    String.length (fmtDeg a) = 5%nat.
Proof. exact (fmtDeg_shape a). Qed.

Lemma fmtXteNm_digits_check :
  forallb (fun n => String.eqb (toFixed 2 (inject_Z (Z.of_N n) / 100))
                               (d_dd n))
          (map N.of_nat (seq 0 1000)) = true.
Proof. vm_compute. reflexivity. Qed.

Lemma Qfloor_half (n : Z) : Qfloor (inject_Z n + (1 # 2)) = n.
Proof. apply WrapFacts.Qfloor_unique. lra. Qed.

Lemma fmtXteNm_shape (nm : Q) :
  let c := Qmax 0 (Qmin (999 # 100) nm) in
  (exists n : N,
     (n <= 999)%N /\
     Z.of_N n = Qfloor (c * 100 + (1 # 2)) /\
     fmtXteNm nm = d_dd n) /\
  String.length (fmtXteNm nm) = 4%nat /\
  (nm <= 0 -> fmtXteNm nm = "0.00") /\
  (999 # 100 <= nm -> fmtXteNm nm = "9.99").
Proof.
  intros c.
  assert (C0 : 0 <= c) by apply Q.le_max_l.
  assert (C1 : c <= 999 # 100).
  { unfold c. apply Q.max_lub; [discriminate | apply Q.le_min_l]. }
  set (z := Qfloor (c * 100 + (1 # 2))).
  assert (Z0 : (0 <= z <= 999)%Z).
  { split.
    - rewrite <- (Qfloor_Z 0). apply Qfloor_resp_le. change (inject_Z 0) with 0.
      lra.
    - rewrite <- (Qfloor_half 999). apply Qfloor_resp_le.
      change (inject_Z 999) with 999. lra. }
  assert (F : fmtXteNm nm = d_dd (Z.to_N z)).
  { unfold fmtXteNm. cbv zeta. fold c.
    rewrite (toFixed_same 2 c (inject_Z z / 100)).
    - pose proof (forallb_below _ 1000 fmtXteNm_digits_check (Z.to_N z)) as C.
      cbv beta in C. rewrite Z2N.id in C by lia.
      apply String.eqb_eq, C. lia.
    - exact C0.
    - unfold Qdiv. apply Qmult_le_0_compat; [|discriminate].
      change 0 with (inject_Z 0). rewrite <- Zle_Qle. lia.
    - rewrite (Qfloor_comp (Qabs c * inject_Z (pow10 2) + (1 # 2))
                           (c * 100 + (1 # 2))).
      + rewrite (Qfloor_comp (Qabs (inject_Z z / 100) * inject_Z (pow10 2)
                              + (1 # 2)) (inject_Z z + (1 # 2))).
        * rewrite Qfloor_half. reflexivity.
        * rewrite Qabs_pos.
          -- change (inject_Z (pow10 2)) with 100. field.
          -- unfold Qdiv. apply Qmult_le_0_compat; [|discriminate].
             change 0 with (inject_Z 0). rewrite <- Zle_Qle. lia.
      + rewrite Qabs_pos by exact C0.
        change (inject_Z (pow10 2)) with 100. reflexivity. }
  assert (Edge : forall v : Z, c == inject_Z v / 100 -> z = v).
  { intros v E. unfold z.
    rewrite (Qfloor_comp _ (inject_Z v + (1 # 2))) by (rewrite E; field).
    apply Qfloor_half. }
  split; [|split; [|split]].
  - exists (Z.to_N z). rewrite Z2N.id by lia.
    split; [lia | split; [reflexivity | exact F]].
  - rewrite F. reflexivity.
  - intros H. rewrite F, (Edge 0%Z); [reflexivity|].
    unfold c. rewrite Q.max_l; [reflexivity|].
    apply Qle_trans with nm; [apply Q.le_min_r | exact H].
  - intros H. rewrite F, (Edge 999%Z); [reflexivity|].
    unfold c. rewrite Q.min_l by exact H. reflexivity.
Qed.

(** X3. [fmtXteNm] always gives four characters, a digit, a point and two
    digits: the distance cut to the range from 0 to 9.99 and rounded to
    hundredths.  A distance of 0 or less is printed as 0.00 and one of
    9.99 or more as 9.99. *)
Theorem fmtXteNm_fixed_width (nm : Q) :
  let c := Qmax 0 (Qmin (999 # 100) nm) in
  (exists n : N,
     (n <= 999)%N /\
     Z.of_N n = Qfloor (c * 100 + (1 # 2)) /\
     fmtXteNm nm = d_dd n) /\
  String.length (fmtXteNm nm) = 4%nat /\
  (nm <= 0 -> fmtXteNm nm = "0.00") /\
  (999 # 100 <= nm -> fmtXteNm nm = "9.99").
Proof. exact (fmtXteNm_shape nm). Qed.

(** X3, at a small distance, a negative one and a large one. *)
Lemma fmtXteNm_fixed_width_witness :
  fmtXteNm (-3) = "0.00" /\ fmtXteNm 50 = "9.99".
Proof.
  destruct (fmtXteNm_fixed_width (-3)) as [_ [_ [A _]]].
  destruct (fmtXteNm_fixed_width 50) as [_ [_ [_ B]]].
  split; [apply A | apply B]; vm_compute; discriminate.
Defined.

Lemma upper_char_fixed (c : ascii) :
  is_upper c || is_digit c = true -> upper_char c = c.
Proof.
  intros H. unfold upper_char.
  destruct (is_lower c) eqn:L; [|reflexivity].
  exfalso. unfold is_upper, is_digit, is_lower in *.
  apply andb_true_iff in L. destruct L as [L1 L2].
  apply N.leb_le in L1, L2.
  apply orb_true_iff in H. destruct H as [H|H];
    apply andb_true_iff in H; destruct H as [H1 H2];
    apply N.leb_le in H1, H2; lia.
Qed.

Lemma sanitizeTalker_shape (t : option string) :
  exists a b : ascii,
    sanitizeTalker t = String a (String b "") /\
    is_upper a || is_digit a = true /\
    is_upper b || is_digit b = true.
Proof.
  { unfold sanitizeTalker.
    set (up := strip_non_A_Z_0_9 _).
    assert (F : forall_string (fun c => is_upper c || is_digit c) up = true)
      by apply forall_filter_string.
    destruct (Nat.leb_spec 2 (String.length up)) as [H|H].
    - destruct up as [|a [|b r]]; simpl in H; try lia.
      rewrite substring_0_2. simpl in F.
      apply andb_true_iff in F. destruct F as [Fa F].
      apply andb_true_iff in F. destruct F as [Fb _].
      exists a, b. auto.
    - exists "I"%char, "I"%char. auto. }
Qed.

(** X4. [sanitizeTalker] applied to its own result gives that result
    again: a talker that went through it once is left alone. *)
Theorem sanitizeTalker_idempotent (t : option string) :
  sanitizeTalker (Some (sanitizeTalker t)) = sanitizeTalker t.
Proof.
  destruct (sanitizeTalker_shape t) as [a [b [E [Ha Hb]]]]. rewrite E.
  unfold sanitizeTalker. cbn [String.eqb toUpperCase].
  rewrite (upper_char_fixed a Ha), (upper_char_fixed b Hb).
  unfold strip_non_A_Z_0_9. cbn [filter_string]. rewrite Ha, Hb.
  reflexivity.
Qed.

End FormatFacts.

(** ** The fused status *)

Module StatusFacts.

Import HtsBodApb.

Lemma readAngleDeg_cases (env : Env) (path : string) :
  (exists r, value_at env path = VScalar (Num r) /\
             readAngleDeg env path
             = Some (wrap360 (if Qle_bool (Qabs r) radians_bound
                              then radToDeg r else r))) \/
  ((forall r, value_at env path <> VScalar (Num r)) /\
   readAngleDeg env path = None).
Proof.
  unfold readAngleDeg.
  destruct (value_at env path) as [|[r| |neg]|la lo].
  - right. split; [intros r; discriminate | reflexivity].
  - left. exists r. split; reflexivity.
  - right. split; [intros r; discriminate | reflexivity].
  - right. split; [intros r; discriminate | reflexivity].
  - right. split; [intros r; discriminate | reflexivity].
Qed.

Lemma readAngleDeg_tenths (env : Env) (path : string) :
  opt_whole_tenths (readAngleDeg env path).
Proof.
  destruct (readAngleDeg_cases env path) as [[r [_ E]] | [_ E]];
    rewrite E; simpl; [apply WrapFacts.whole_tenths_wrap360 | exact I].
Qed.



Lemma computeStatus_heading (env : Env) (P : Paths) (gps : Q) :
  let b := best (computeStatus env P gps) in
  (headingMagDeg b, headingMagSource b) =
  match readAngleDeg env (hdgMag P), readAngleDeg env (hdgTrue P),
        readAngleDeg env (variation P) with
  | Some h, _, _ => (Some h, Some (hdgMag P))
  | None, Some t, Some v =>
      (Some (wrap360 (t - v)), Some (hdgTrue P ++ " + variation"))
  | None, _, _ => (None, None)
  end.
Proof.
  unfold computeStatus.
  destruct (readAngleDeg env (cogMag P)) as [m|],
           (readAngleDeg env (cogTrue P)) as [t|],
           (readAngleDeg env (variation P)) as [v|],
           (readAngleDeg env (hdgMag P)) as [h|],
           (readAngleDeg env (hdgTrue P)) as [ht|]; reflexivity.
Qed.

(** X6. The fused magnetic heading is the direct magnetic reading when
    there is one; else [wrap360 (hdgTrue - variation)] when both are read,
    tagged with the true-heading path and [ + variation]; else null with no
    tag.  The course readings play no part in it. *)
Theorem heading_magnetic_fallback_order (env : Env) (P : Paths) (gps : Q) :
  let b := best (computeStatus env P gps) in
  (headingMagDeg b, headingMagSource b) =
  match readAngleDeg env (hdgMag P), readAngleDeg env (hdgTrue P),
        readAngleDeg env (variation P) with
  | Some h, _, _ => (Some h, Some (hdgMag P))
  | None, Some t, Some v =>
      (Some (wrap360 (t - v)), Some (hdgTrue P ++ " + variation"))
  | None, _, _ => (None, None)
  end.
Proof. exact (computeStatus_heading env P gps). Qed.

Lemma computeStatus_position (env : Env) (P : Paths) (gps : Q) :
  let b := best (computeStatus env P gps) in
  positionFresh b
  = match readPosition env (position P) with
    | Some p =>
        match timestampMs p with
        | Some ts => Qle_bool (Date_now env - ts) (gps * 1000)
        | None => false
        end
    | None => false
    end /\
  best_position b
  = match readPosition env (position P) with
    | Some p => Some {| lat := p_lat p; lon := p_lon p |}
    | None => None
    end.
Proof.
  unfold computeStatus.
  destruct (readAngleDeg env (cogMag P)) as [m|],
           (readAngleDeg env (cogTrue P)) as [t|],
           (readAngleDeg env (variation P)) as [v|],
           (readAngleDeg env (hdgMag P)) as [h|],
           (readAngleDeg env (hdgTrue P)) as [ht|]; split; reflexivity.
Qed.

(** X7. The position counts as fresh exactly when the provider has an
    object with finite latitude and longitude there, with a timestamp that
    parses, no older than the threshold; so a fresh position is a present
    one, and a position without a timestamp is never fresh. *)
Theorem position_fresh_iff (env : Env) (P : Paths) (gps : Q) :
  let b := best (computeStatus env P gps) in
  (positionFresh b = true <->
   exists la lo ts,
     value_at env (position P) = VObject (Num la) (Num lo) /\
     timestamp_at env (position P) = Some (Num ts) /\
     Date_now env - ts <= gps * 1000) /\
  (best_position b <> None <->
   exists la lo, value_at env (position P) = VObject (Num la) (Num lo)) /\
  (positionFresh b = true -> best_position b <> None).
Proof.
  intros b.
  assert (A : positionFresh b = true <->
              exists la lo ts,
                value_at env (position P) = VObject (Num la) (Num lo) /\
                timestamp_at env (position P) = Some (Num ts) /\
                Date_now env - ts <= gps * 1000).
  { unfold b. rewrite (proj1 (computeStatus_position env P gps)).
    unfold readPosition.
    destruct (value_at env (position P)) as [|x|[la| |] [lo| |]];
      cbn [timestampMs];
      try (split; [discriminate | intros [? [? [? [H _]]]]; discriminate]).
    destruct (timestamp_at env (position P)) as [[ts| |]|];
      try (split; [discriminate | intros [? [? [? [_ [H _]]]]]; discriminate]).
    split.
    - intros H. apply Qle_bool_iff in H. exists la, lo, ts. auto.
    - intros [la' [lo' [ts' [_ [T H]]]]]. inversion T. subst ts'.
      now apply Qle_bool_iff. }
  assert (B : best_position b <> None <->
              exists la lo,
                value_at env (position P) = VObject (Num la) (Num lo)).
  { unfold b. rewrite (proj2 (computeStatus_position env P gps)).
    unfold readPosition.
    destruct (value_at env (position P)) as [|x|[la| |] [lo| |]];
      try (split; [intros H; elim H; reflexivity
                  | intros [? [? H]]; discriminate]).
    split; [intros _; exists la, lo; reflexivity | discriminate]. }
  split; [exact A | split; [exact B|]].
  intros F. apply B. apply A in F. destruct F as [la [lo [_ [V _]]]].
  exists la, lo. exact V.
Qed.

(** X7, with the position of the sample provider two seconds old. *)
Lemma position_fresh_iff_witness :
  let b := best (computeStatus Sample.env_underway default_paths 5) in
  positionFresh b = true /\ best_position b <> None.
Proof.
  intros b.
  destruct (position_fresh_iff Sample.env_underway default_paths 5)
    as [A [_ C]].
  assert (F : positionFresh b = true).
  { apply A. exists 50, 10, 1000. repeat split. vm_compute. discriminate. }
  split; [exact F | exact (C F)].
Defined.

Lemma best_angles_tenths (env : Env) (P : Paths) (gps : Q) :
  let b := best (computeStatus env P gps) in
  opt_whole_tenths (variationDeg b) /\
  opt_whole_tenths (cogMagDeg b) /\
  opt_whole_tenths (headingMagDeg b).
Proof.
  intros b.
  pose proof (readAngleDeg_tenths env (variation P)) as V.
  pose proof (readAngleDeg_tenths env (cogMag P)) as C.
  pose proof (readAngleDeg_tenths env (hdgMag P)) as H.
  unfold b, computeStatus.
  destruct (readAngleDeg env (cogMag P)) as [m|],
           (readAngleDeg env (cogTrue P)) as [t|],
           (readAngleDeg env (variation P)) as [v|],
           (readAngleDeg env (hdgMag P)) as [h|],
           (readAngleDeg env (hdgTrue P)) as [ht|];
    cbn; repeat split; auto; try apply WrapFacts.whole_tenths_wrap360.
Qed.

(** X8. Every angle of the fused status that is not null is a whole
    number of tenths between 0 and 360 (both ends can occur): the
    variation, the magnetic course and the magnetic heading. *)
Theorem fused_angles_whole_tenths (env : Env) (P : Paths) (gps : Q) :
  let b := best (computeStatus env P gps) in
  opt_whole_tenths (variationDeg b) /\
  opt_whole_tenths (cogMagDeg b) /\
  opt_whole_tenths (headingMagDeg b).
Proof. exact (best_angles_tenths env P gps). Qed.

End StatusFacts.

(** ** More on the commands *)

Module StateFacts.

Import HtsBodApb.

(** A request runs the block of its own name and no other; the
    adjustment at the end does nothing unless the name is one of the four
    nudges. *)
Lemma cmd_cases (cfg : Config) (env : Env) (c : string) (n : number)
    (s : State) :
  let st := computeStatus env (PATHS cfg) (gpsStaleSeconds cfg) in
  cmd cfg env c n s =
  if c =? "enable" then set_enabled true s
  else if c =? "disable" then set_enabled false s
  else if c =? "mode_bod" then set_mode BOD s
  else if c =? "mode_apb" then set_mode APB s
  else if c =? "hold_heading" then do_hold_heading st s
  else if c =? "set_heading" then do_set_heading n s
  else if c =? "clear_heading" then set_targetMagDeg None s
  else if c =? "hold_rhumb" then do_hold_rhumb st s
  else if c =? "stop_track" then do_stop_track s
  else do_adjust st (delta_of c) s.
Proof.
  intros st. unfold cmd. fold st. clearbody st. cbv zeta. unfold when.
  repeat match goal with
         | |- context [String.eqb c ?x] =>
             destruct (String.eqb_spec c x) as [->|_]; [reflexivity|]
         end.
  reflexivity.
Qed.

Lemma cmd_preserved (I : State -> Prop) (cfg : Config) (env : Env)
    (c : string) (n : number) :
  let st := computeStatus env (PATHS cfg) (gpsStaleSeconds cfg) in
  preserved I (set_enabled true) -> preserved I (set_enabled false) ->
  preserved I (set_mode BOD) -> preserved I (set_mode APB) ->
  preserved I (do_hold_heading st) -> preserved I (do_set_heading n) ->
  preserved I (set_targetMagDeg None) -> preserved I (do_hold_rhumb st) ->
  preserved I do_stop_track -> preserved I (do_adjust st (delta_of c)) ->
  preserved I (cmd cfg env c n).
Proof.
  intros st H1 H2 H3 H4 H5 H6 H7 H8 H9 H10 s Hs.
  rewrite cmd_cases. fold st.
  repeat match goal with
         | |- context [if ?b then _ else _] => destruct b
         end; auto.
Qed.

(** X9. A request whose name the handler does not know changes nothing. *)
Theorem unknown_command_is_noop (cfg : Config) (env : Env) (c : string)
    (n : number) (s : State) :
  ~ In c command_names -> cmd cfg env c n s = s.
Proof.
  intros H. rewrite cmd_cases. unfold delta_of.
  repeat match goal with
         | |- context [String.eqb c ?x] =>
             destruct (String.eqb_spec c x) as [E|_];
             [exfalso; apply H; rewrite E; cbv; tauto|]
         end.
  reflexivity.
Qed.

(** X9, with a misspelt name. *)
Lemma unknown_command_is_noop_witness :
  cmd Sample.cfg0 Sample.env_underway "hold-rhumb" NaN initial = initial.
Proof.
  apply unknown_command_is_noop. cbv.
  intros H. repeat (destruct H as [H|H]; [discriminate|]). exact H.
Defined.

(** X10. Every request except the four nudges is idempotent: sent twice
    with the same argument while the provider shows the same readings, it
    leaves what it left the first time. *)
Theorem command_idempotent (cfg : Config) (env : Env) (c : string)
    (n : number) (s : State) :
  ~ In c nudge_names ->
  cmd cfg env c n (cmd cfg env c n s) = cmd cfg env c n s.
Proof.
  intros H. rewrite !cmd_cases.
  generalize (computeStatus env (PATHS cfg) (gpsStaleSeconds cfg)) as st.
  intros st. unfold delta_of.
  repeat match goal with
         | |- context [String.eqb c ?x] =>
             destruct (String.eqb_spec c x) as [E|_]
         end;
    try (exfalso; apply H; rewrite E; cbv; tauto);
    try reflexivity.
  - unfold do_hold_heading. destruct (headingMagDeg (best st)); reflexivity.
  - destruct n; reflexivity.
  - unfold do_hold_rhumb.
    destruct (best_position (best st)); [|reflexivity].
    destruct (positionFresh (best st)); [|reflexivity].
    destruct (cogMagDeg (best st)); [reflexivity|].
    destruct (headingMagDeg (best st)); reflexivity.
Qed.

(** X10, with [stop_track] after a track was captured. *)
Lemma command_idempotent_witness :
  let s := cmd Sample.cfg0 Sample.env_underway "hold_rhumb" NaN initial in
  cmd Sample.cfg0 Sample.env_underway "stop_track" NaN
    (cmd Sample.cfg0 Sample.env_underway "stop_track" NaN s)
  = cmd Sample.cfg0 Sample.env_underway "stop_track" NaN s.
Proof.
  intros s. apply command_idempotent. cbv.
  intros H. repeat (destruct H as [H|H]; [discriminate|]). exact H.
Defined.

(** X11. [hold_rhumb] with a fresh position and a bearing (the fused
    magnetic course, or the fused magnetic heading when there is no
    course) captures the track: the start is the current position, the
    magnetic bearing is [wrap360] of that bearing, the true bearing is
    [wrap360] of it plus the variation when the variation is known and
    null otherwise, the track is active, the mode is APB and the heading
    target is null. *)
Theorem hold_rhumb_captures_track (cfg : Config) (env : Env) (n : number)
    (s : State) (p : LatLon) (brg : Q) :
  let b := best (computeStatus env (PATHS cfg) (gpsStaleSeconds cfg)) in
  let s' := cmd cfg env "hold_rhumb" n s in
  best_position b = Some p ->
  positionFresh b = true ->
  match cogMagDeg b with Some x => Some x | None => headingMagDeg b end
  = Some brg ->
  trackActive s' = true /\ mode s' = APB /\ targetMagDeg s' = None /\
  trackStart s' = Some p /\
  trackBearingMagDeg s' = Some (wrap360 brg) /\
  trackBearingTrueDeg s'
  = match variationDeg b with
    | Some va => Some (wrap360 (wrap360 brg + va))
    | None => None
    end /\
  enabled s' = enabled s.
Proof.
  intros b s' P F B. unfold s'.
  rewrite CommandFacts.cmd_hold_rhumb. unfold do_hold_rhumb. fold b.
  rewrite P, F. cbv zeta. rewrite B. destruct p as [la lo].
  repeat split.
Qed.

(** X11, with the sample provider: position two seconds old, heading 90. *)
Lemma hold_rhumb_captures_track_witness :
  let s' := cmd Sample.cfg0 Sample.env_underway "hold_rhumb" NaN initial in
  trackActive s' = true /\ mode s' = APB /\
  trackStart s' = Some {| lat := 50; lon := 10 |} /\
  oQeq (trackBearingMagDeg s') (Some 90).
Proof.
  intros s'.
  destruct (hold_rhumb_captures_track Sample.cfg0 Sample.env_underway NaN
              initial {| lat := 50; lon := 10 |} (900 # 10))
    as [A [M [_ [S0 [Bm _]]]]];
    try (vm_compute; reflexivity).
  split; [exact A | split; [exact M | split; [exact S0|]]].
  fold s' in Bm. rewrite Bm. reflexivity.
Defined.

(** X12. [hold_heading] with a fused magnetic heading makes it the
    target, sets the mode to BOD and switches the track off, leaving the
    start and the bearings of the track as they were; without a heading it
    changes nothing. *)
Theorem hold_heading_effect (cfg : Config) (env : Env) (n : number)
    (s : State) :
  let b := best (computeStatus env (PATHS cfg) (gpsStaleSeconds cfg)) in
  let s' := cmd cfg env "hold_heading" n s in
  (forall h, headingMagDeg b = Some h ->
     targetMagDeg s' = Some h /\ mode s' = BOD /\ trackActive s' = false /\
     trackStart s' = trackStart s /\
     trackBearingMagDeg s' = trackBearingMagDeg s /\
     trackBearingTrueDeg s' = trackBearingTrueDeg s /\
     enabled s' = enabled s) /\
  (headingMagDeg b = None -> s' = s).
Proof.
  intros b s'.
  assert (E : s' = do_hold_heading
                     (computeStatus env (PATHS cfg) (gpsStaleSeconds cfg)) s)
    by reflexivity.
  rewrite E. unfold do_hold_heading. fold b. split.
  - intros h H. rewrite H. repeat split.
  - intros H. rewrite H. reflexivity.
Qed.

(** X12, with a heading of 90 and with no readings at all. *)
Lemma hold_heading_effect_witness :
  oQeq (targetMagDeg
          (cmd Sample.cfg0 Sample.env_underway "hold_heading" NaN initial))
       (Some 90) /\
  cmd Sample.cfg0 {| getSelfPath := fun _ => None; Date_now := 0 |}
      "hold_heading" NaN initial = initial.
Proof.
  destruct (hold_heading_effect Sample.cfg0 Sample.env_underway NaN initial)
    as [A _].
  destruct (hold_heading_effect Sample.cfg0
              {| getSelfPath := fun _ => None; Date_now := 0 |} NaN initial)
    as [_ B].
  split.
  - destruct (A (900 # 10)) as [T _]; [vm_compute; reflexivity|].
    rewrite T. reflexivity.
  - apply B. vm_compute. reflexivity.
Defined.

End StateFacts.

(** ** Invariants of the reachable states *)

Module RunFacts.

Import HtsBodApb.

Lemma cmd_nudge (cfg : Config) (env : Env) (c : string) (n : number)
    (s : State) (t : Q) :
  In c nudge_names -> mode s = BOD -> targetMagDeg s = Some t ->
  cmd cfg env c n s = set_targetMagDeg (Some (wrap360 (t + delta_of c))) s.
Proof.
  intros H M T. rewrite StateFacts.cmd_cases.
  assert (A : forall st d, Qeq_bool d 0 = false ->
                do_adjust st d s = set_targetMagDeg (Some (wrap360 (t + d))) s).
  { intros st d D. unfold do_adjust. rewrite D.
    unfold adjust_heading. rewrite M, T.
    unfold adjust_track. cbn [mode set_targetMagDeg]. rewrite M.
    reflexivity. }
  cbv in H. destruct H as [<-|[<-|[<-|[<-|[]]]]]; apply A; reflexivity.
Qed.

Lemma oQeq_trans_some (a : option Q) (x y : Q) :
  oQeq a (Some x) -> x == y -> oQeq a (Some y).
Proof.
  destruct a as [v|]; cbn; [|auto]. intros H E. now rewrite H.
Qed.

Lemma delta_of_integer (c : string) : exists z : Z, delta_of c = inject_Z z.
Proof.
  unfold delta_of.
  destruct (c =? "p1"); [exists 1%Z; reflexivity|].
  destruct (c =? "m1"); [exists (-1)%Z; reflexivity|].
  destruct (c =? "p10"); [exists 10%Z; reflexivity|].
  destruct (c =? "m10"); [exists (-10)%Z; reflexivity|].
  exists 0%Z; reflexivity.
Qed.

Lemma nudges_from (cfg : Config) (rs : list Request) :
  (forall r, In r rs -> In (request_name r) nudge_names) ->
  forall (r0 : Request) (s : State) (t : Q) (k : Z),
    In (request_name r0) nudge_names ->
    mode s = BOD -> targetMagDeg s = Some t -> t == inject_Z k / 10 ->
    let s' := commands cfg (r0 :: rs) s in
    mode s' = BOD /\
    oQeq (targetMagDeg s') (Some (wrap360 (t + sum_deltas (r0 :: rs)))).
Proof.
  induction rs as [|r1 rs IH]; intros Hrs [[env c] n] s t k H0 M T K;
    unfold request_name in H0; cbn [fst snd] in H0.
  - cbn [commands sum_deltas]. rewrite (cmd_nudge cfg env c n s t H0 M T).
    split; [exact M|]. cbn [targetMagDeg set_targetMagDeg oQeq].
    apply wrap360_comp. ring.
  - change (commands cfg ((env, c, n) :: r1 :: rs) s)
      with (commands cfg (r1 :: rs) (cmd cfg env c n s)).
    set (s1 := cmd cfg env c n s).
    assert (E1 : s1 = set_targetMagDeg (Some (wrap360 (t + delta_of c))) s)
      by apply (cmd_nudge cfg env c n s t H0 M T).
    destruct (delta_of_integer c) as [z Z0].
    destruct (wrap360_tenths (t + delta_of c)) as [k1 [_ K1]].
    assert (H1 : In (request_name r1) nudge_names)
      by (apply Hrs; left; reflexivity).
    assert (Hrest : forall r, In r rs -> In (request_name r) nudge_names)
      by (intros r Hr; apply Hrs; right; exact Hr).
    destruct (IH Hrest r1 s1 (wrap360 (t + delta_of c)) k1 H1) as [M' T'].
    + rewrite E1. exact M.
    + rewrite E1. reflexivity.
    + rewrite K1. reflexivity.
    + split; [exact M'|].
      apply (oQeq_trans_some _ _ _ T').
      rewrite (WrapFacts.wrap360_add_wrapped (t + delta_of c)
                 (sum_deltas (r1 :: rs)) (k + 10 * z)).
      * apply wrap360_comp. cbn [sum_deltas]. ring.
      * rewrite K, Z0, inject_Z_plus, inject_Z_mult.
        change (inject_Z 10) with 10. field.
Qed.

(** X13. Nudges add up.  In BOD mode with a target of whole tenths, any
    sequence of the requests [p1], [m1], [p10] and [m10] leaves the mode
    at BOD and the target at [wrap360] of the old target plus the sum of
    the steps: ten [p1] do what one [p10] does, and [p1] then [m1] gives
    back the target wrapped. *)
Theorem nudges_add_up (cfg : Config) (rs : list Request) (s : State)
    (t : Q) (k : Z) :
  rs <> [] ->
  (forall r, In r rs -> In (request_name r) nudge_names) ->
  mode s = BOD -> targetMagDeg s = Some t -> t == inject_Z k / 10 ->
  mode (commands cfg rs s) = BOD /\
  oQeq (targetMagDeg (commands cfg rs s))
       (Some (wrap360 (t + sum_deltas rs))).
Proof.
  intros N H M T K. destruct rs as [|r0 rs]; [congruence|].
  apply (nudges_from cfg rs) with (k := k); auto.
  - intros r Hr. apply H. right. exact Hr.
  - apply H. left. reflexivity.
Qed.

(** X13, from a target of 359: two [p1] give 1, and [p10] then [m10]
    give 359 again. *)
Lemma nudges_add_up_witness :
  let e := Sample.env_underway in
  let s := cmd Sample.cfg0 e "set_heading" (Num 359) initial in
  oQeq (targetMagDeg (commands Sample.cfg0 [(e, "p1", NaN); (e, "p1", NaN)] s))
       (Some 1) /\
  oQeq (targetMagDeg (commands Sample.cfg0 [(e, "p10", NaN); (e, "m10", NaN)] s))
       (Some 359).
Proof.
  intros e s.
  assert (G : forall rs,
             rs <> [] ->
             (forall r, In r rs -> In (request_name r) nudge_names) ->
             oQeq (targetMagDeg (commands Sample.cfg0 rs s))
                  (Some (wrap360 (wrap360 359 + sum_deltas rs)))).
  { intros rs N H.
    apply (nudges_add_up Sample.cfg0 rs s (wrap360 359) 3590 N H);
      reflexivity. }
  assert (N2 : forall a b : Request, a :: b :: nil <> nil) by discriminate.
  split.
  - apply (oQeq_trans_some _ (wrap360 (wrap360 359
                                + sum_deltas [(e, "p1", NaN); (e, "p1", NaN)]))).
    + apply G; [apply N2|]. intros r [<-|[<-|[]]]; cbv; tauto.
    + reflexivity.
  - apply (oQeq_trans_some _ (wrap360 (wrap360 359
                                + sum_deltas [(e, "p10", NaN); (e, "m10", NaN)]))).
    + apply G; [apply N2|]. intros r [<-|[<-|[]]]; cbv; tauto.
    + reflexivity.
Defined.

Lemma cmd_records (cfg : Config) (env : Env) (c : string) (n : number)
    (s : State) :
  records (cmd cfg env c n s) = records s.
Proof.
  apply (StateFacts.cmd_preserved (fun x => records x = records s) cfg env c n);
    try (intros x Hx; exact Hx); try reflexivity.
  - intros x Hx. unfold do_hold_heading.
    destruct (headingMagDeg _); exact Hx.
  - intros x Hx. destruct n; exact Hx.
  - intros x Hx. unfold do_hold_rhumb.
    destruct (best_position _); [|exact Hx].
    destruct (positionFresh _); [|exact Hx].
    destruct (cogMagDeg _); [exact Hx|].
    destruct (headingMagDeg _); exact Hx.
  - intros x Hx. unfold do_adjust. destruct (Qeq_bool _ _); [exact Hx|].
    unfold adjust_track, adjust_heading.
    destruct (mode x) eqn:M, (targetMagDeg x) eqn:T, (trackActive x) eqn:A,
             (trackBearingMagDeg x) eqn:B;
      cbn [mode trackActive trackBearingMagDeg set_targetMagDeg];
      rewrite ?M, ?A, ?B; exact Hx.
Qed.

Section Runs.

Variable Math_sin : Q -> Q.
Variable Math_cos : Q -> Q.

Lemma emit_control (env : Env) (x : string) (st : option Status)
    (s : State) :
  control (fst (emit env x (set_lastStatus st s))) = control s /\
  trackName (fst (emit env x (set_lastStatus st s))) = trackName s.
Proof. split; reflexivity. Qed.

Lemma idle_control (st : option Status) (s : State) :
  control (fst (set_lastStatus st s, @None string)) = control s /\
  trackName (fst (set_lastStatus st s, @None string)) = trackName s.
Proof. split; reflexivity. Qed.

Lemma tick_control (cfg : Config) (env : Env) (s : State) :
  control (fst (tick Math_sin Math_cos cfg env s)) = control s /\
  trackName (fst (tick Math_sin Math_cos cfg env s)) = trackName s.
Proof.
  unfold tick.
  generalize (computeStatus env (PATHS cfg) (gpsStaleSeconds cfg)) as st.
  intros st.
  cbn [enabled mode targetMagDeg trackActive trackStart trackBearingMagDeg
       set_lastStatus].
  destruct (enabled s); cbn [negb]; [|apply idle_control].
  destruct (mode s).
  - destruct (targetMagDeg s); [apply emit_control | apply idle_control].
  - destruct (trackActive s); [|apply idle_control].
    destruct (trackStart s); [|apply idle_control].
    destruct (trackBearingMagDeg s); [|apply idle_control].
    destruct (positionFresh (best st)); [|apply idle_control].
    destruct (best_position (best st));
      [apply emit_control | apply idle_control].
Qed.

(** X14. Commands and ticks keep to their own variables: no request
    changes the track name, the recorded last sentence, its time or the
    recorded status, and no tick changes the enabled flag, the mode, the
    heading target or any variable of the track. *)
Theorem commands_and_ticks_keep_apart (cfg : Config) (env : Env)
    (c : string) (n : number) (s : State) :
  records (cmd cfg env c n s) = records s /\
  control (fst (tick Math_sin Math_cos cfg env s)) = control s /\
  trackName (fst (tick Math_sin Math_cos cfg env s)) = trackName s.
Proof.
  split; [apply cmd_records | apply tick_control].
Qed.

(** What every reachable state satisfies. *)
Lemma reachable_invariants (o : Options) (s : State) :
  reachable Math_sin Math_cos o s ->
  track_active_has_fields s /\
  (trackActive s = true -> targetMagDeg s = None) /\
  (opt_whole_tenths (targetMagDeg s) /\
   opt_whole_tenths (trackBearingMagDeg s) /\
   opt_whole_tenths (trackBearingTrueDeg s)) /\
  trackName s = "RHUMB".
Proof.
  induction 1 as [|s e R IH].
  - repeat split; try exact I; try discriminate; reflexivity.
  - destruct IH as [I1 [I2 [I3 I4]]]. destruct e as [env c n|env].
    + cbn [step]. set (cfg := config_of o).
      pose proof (StatusFacts.best_angles_tenths env (PATHS cfg)
                    (gpsStaleSeconds cfg)) as [Tv [Tc Th]].
      split; [|split; [|split]].
      * apply CommandFacts.keeps_cmd, I1.
      * revert I2.
        apply (StateFacts.cmd_preserved
                 (fun x => trackActive x = true -> targetMagDeg x = None));
          try (intros x Hx; exact Hx).
        -- intros x Hx. unfold do_hold_heading.
           destruct (headingMagDeg _); [discriminate | exact Hx].
        -- intros x Hx. destruct n; [discriminate | exact Hx | exact Hx].
        -- intros x Hx _. reflexivity.
        -- intros x Hx. unfold do_hold_rhumb.
           destruct (best_position _); [|exact Hx].
           destruct (positionFresh _); [|exact Hx].
           destruct (cogMagDeg _); [intros _; reflexivity|].
           destruct (headingMagDeg _); [intros _; reflexivity | exact Hx].
        -- intros x Hx. discriminate.
        -- intros x Hx. unfold do_adjust.
           destruct (Qeq_bool _ _); [exact Hx|].
           unfold adjust_track, adjust_heading.
           destruct (mode x) eqn:M, (targetMagDeg x) eqn:T,
                    (trackActive x) eqn:A, (trackBearingMagDeg x) eqn:B;
             cbn; rewrite ?M, ?T, ?A, ?B; cbn; auto;
             intros; try discriminate;
             try (specialize (Hx eq_refl)); congruence.
      * revert I3.
        apply (StateFacts.cmd_preserved
                 (fun x => opt_whole_tenths (targetMagDeg x) /\
                           opt_whole_tenths (trackBearingMagDeg x) /\
                           opt_whole_tenths (trackBearingTrueDeg x)));
          try (intros x Hx; exact Hx).
        -- intros x [H1 [H2 H3]]. unfold do_hold_heading. fold cfg.
           destruct (headingMagDeg _); [|auto].
           cbn. auto.
        -- intros x [H1 [H2 H3]]. destruct n; cbn; auto.
           split; [apply WrapFacts.whole_tenths_wrap360 | auto].
        -- intros x [H1 [H2 H3]]. cbn. auto.
        -- intros x [H1 [H2 H3]]. unfold do_hold_rhumb.
           destruct (best_position _); [|auto].
           destruct (positionFresh _); [|auto].
           destruct (match cogMagDeg _ with Some b => Some b | None => _ end);
             [|auto].
           destruct (variationDeg _); cbn; repeat split;
             try exact I; apply WrapFacts.whole_tenths_wrap360.
        -- intros x [H1 [H2 H3]]. cbn. auto.
        -- intros x [H1 [H2 H3]]. unfold do_adjust.
           destruct (Qeq_bool _ _); [auto|].
           unfold adjust_track, adjust_heading.
           destruct (mode x) eqn:M, (targetMagDeg x) eqn:T,
                    (trackActive x) eqn:A, (trackBearingMagDeg x) eqn:B,
                    (variationDeg _);
             cbn; rewrite ?M, ?T, ?A, ?B; cbn; repeat split; auto;
             try exact I; try apply WrapFacts.whole_tenths_wrap360;
             try (rewrite B; exact H2); try (rewrite T; exact H1).
      * pose proof (cmd_records cfg env c n s) as Rc.
        unfold records in Rc. injection Rc as -> _ _ _. exact I4.
    + cbn [step].
      destruct (tick_control (config_of o) env s) as [C N].
      unfold control in C. injection C as C1 C2 C3 C4 C5 C6 C7.
      unfold track_active_has_fields, track_fields_set in *.
      rewrite C3, C4, C5, C6, C7, N. auto.
Qed.

(** X15. In every state the plugin can reach, an active track and a
    heading target never exist together: while the track is active the
    target is null. *)
Theorem active_track_excludes_target (o : Options) (s : State) :
  reachable Math_sin Math_cos o s ->
  trackActive s = true -> targetMagDeg s = None.
Proof. intros R. apply (reachable_invariants o s R). Qed.

(** X16. In every state the plugin can reach, the heading target and the
    two bearings of the track are null or whole numbers of tenths between
    0 and 360, and the track name is [RHUMB]. *)
Theorem stored_angles_whole_tenths (o : Options) (s : State) :
  reachable Math_sin Math_cos o s ->
  opt_whole_tenths (targetMagDeg s) /\
  opt_whole_tenths (trackBearingMagDeg s) /\
  opt_whole_tenths (trackBearingTrueDeg s) /\
  trackName s = "RHUMB".
Proof.
  intros R. destruct (reachable_invariants o s R) as [_ [_ [[A [B C]] D]]].
  auto.
Qed.

End Runs.

(** X15 and X16, after [hold_rhumb] from the start. *)
Lemma active_track_excludes_target_witness :
  let s := step (fun _ => 0) (fun _ => 1) (config_of Sample.no_options)
             (start Sample.no_options initial)
             (Command Sample.env_underway "hold_rhumb" NaN) in
  trackActive s = true /\ targetMagDeg s = None.
Proof.
  intros s. assert (A : trackActive s = true) by (vm_compute; reflexivity).
  split; [exact A|].
  apply (active_track_excludes_target (fun _ => 0) (fun _ => 1)
           Sample.no_options s); [|exact A].
  apply reach_step, reach_start.
Defined.

Lemma stored_angles_whole_tenths_witness :
  let s := step (fun _ => 0) (fun _ => 1) (config_of Sample.no_options)
             (start Sample.no_options initial)
             (Command Sample.env_underway "hold_rhumb" NaN) in
  opt_whole_tenths (trackBearingMagDeg s) /\ trackName s = "RHUMB".
Proof.
  intros s.
  destruct (stored_angles_whole_tenths (fun _ => 0) (fun _ => 1)
              Sample.no_options s) as [_ [B [_ D]]].
  - apply reach_step, reach_start.
  - split; [exact B | exact D].
Defined.

End RunFacts.

(** ** What the ticks emit *)

Module TickFacts.

Import HtsBodApb.

Lemma app_assoc_string (a b c : string) : (a ++ b) ++ c = a ++ (b ++ c).
Proof. induction a as [|x a IH]; simpl; [reflexivity | now rewrite IH]. Qed.

Lemma hex_digit_not_space (c : ascii) :
  upper_hex_value c <> None -> is_space c = false.
Proof.
  destruct c as [[] [] [] [] [] [] [] []]; vm_compute; intros H;
    try reflexivity; elim H; reflexivity.
Qed.

Lemma substring_0_0 (s : string) : substring 0 0 s = "".
Proof. destruct s; reflexivity. Qed.

Lemma app_not_empty (pre : string) (c : ascii) :
  String.eqb (pre ++ String c "") "" = false.
Proof. destruct pre; reflexivity. Qed.

Lemma trimEnd_before_CRLF (pre : string) (c : ascii) :
  is_space c = false -> trimEnd (pre ++ String c CRLF) = pre ++ String c "".
Proof.
  intros H. induction pre as [|a pre IH].
  - cbn [append trimEnd]. change (trimEnd CRLF) with "".
    rewrite H. reflexivity.
  - cbn [append trimEnd]. rewrite IH, app_not_empty, andb_false_r.
    reflexivity.
Qed.

(** The sentence that [addChecksum] makes of [$] and a body, and what
    [trim] leaves of it. *)
Lemma addChecksum_trim (body : string) :
  exists y : string,
    addChecksum ("$" ++ body) = y ++ CRLF /\
    trim (addChecksum ("$" ++ body)) = y /\
    substring 0 1 y = "$" /\
    String.length y = (String.length body + 4)%nat.
Proof.
  destruct (addChecksum_dollar body) as [h1 [h2 [E [_ H2]]]].
  exists ("$" ++ body ++ "*" ++ String h1 (String h2 "")).
  assert (A : addChecksum ("$" ++ body)
              = ("$" ++ body ++ "*" ++ String h1 "") ++ String h2 CRLF).
  { rewrite E. cbn [append]. f_equal.
    rewrite !app_assoc_string. reflexivity. }
  split; [|split; [|split]].
  - rewrite E. cbn [append]. f_equal. rewrite !app_assoc_string.
    reflexivity.
  - rewrite A. unfold trim. cbn [append trimStart].
    change (is_space "$") with false. cbv iota.
    change (String "$" ((body ++ String "*" (String h1 "")) ++ String h2 CRLF))
      with (("$" ++ body ++ "*" ++ String h1 "") ++ String h2 CRLF).
    rewrite trimEnd_before_CRLF.
    + cbn [append]. f_equal. rewrite !app_assoc_string. reflexivity.
    + apply hex_digit_not_space. rewrite H2. discriminate.
  - cbn [append substring]. rewrite substring_0_0. reflexivity.
  - cbn [append String.length]. rewrite length_app. cbn [String.length]. lia.
Qed.

(** X17. [buildAPB] gives
    [$<talker>APB,A,A,<d.dd>,<L|R>,N,A,A,<true>,T,<mag>,M,<dest>,,,*HH]
    and CRLF, with the two status flags and the two arrival flags always
    [A], a null angle as the empty field, and [HH] two upper-case
    hexadecimal digits whose value is the XOR of the codes of the
    characters between [$] and [*]. *)
Theorem buildAPB_sentence (talker : string) (xteNm : Q) (xteSide : Side)
    (htsMagDeg htsTrueDeg : option Q) (destId : option string) :
  let body := talker ++ "APB,A,A," ++ fmtXteNm xteNm ++ ","
              ++ match xteSide with L => "L" | R => "R" end
              ++ ",N,A,A," ++ angle_field htsTrueDeg ++ ",T,"
              ++ angle_field htsMagDeg ++ ",M," ++ orEmpty destId ++ ",,," in
  (exists h1 h2 : ascii,
     buildAPB talker xteNm xteSide htsMagDeg htsTrueDeg destId
     = "$" ++ body ++ "*" ++ String h1 (String h2 "") ++ CRLF /\
     upper_hex_value h1 = Some (xor_codes body 0 / 16)%N /\
     upper_hex_value h2 = Some (xor_codes body 0 mod 16)%N) /\
  (xor_codes body 0 < 256)%N /\
  String.length (fmtXteNm xteNm) = 4%nat.
Proof.
  intros body. split; [|split].
  - exact (addChecksum_dollar body).
  - apply xor_codes_below_256. reflexivity.
  - apply FormatFacts.fmtXteNm_shape.
Qed.

Section Ticks.

Variable Math_sin : Q -> Q.
Variable Math_cos : Q -> Q.

Lemma tick_BOD (cfg : Config) (env : Env) (s : State) (t : Q) :
  let st := computeStatus env (PATHS cfg) (gpsStaleSeconds cfg) in
  enabled s = true -> mode s = BOD -> targetMagDeg s = Some t ->
  tick Math_sin Math_cos cfg env s
  = emit env
      (buildBOD (talker cfg)
         match variationDeg (best st) with
         | Some va => Some (wrap360 (t + va))
         | None => None
         end (Some t) (Some "DEST") (Some "ORIG"))
      (set_lastStatus (Some st) s).
Proof.
  intros st E M T. unfold tick. fold st.
  cbn [enabled mode targetMagDeg set_lastStatus].
  rewrite E, M, T. reflexivity.
Qed.

Lemma tick_APB (cfg : Config) (env : Env) (s : State) (p0 cur : LatLon)
    (brg : Q) :
  let st := computeStatus env (PATHS cfg) (gpsStaleSeconds cfg) in
  enabled s = true -> mode s = APB -> trackActive s = true ->
  trackStart s = Some p0 -> trackBearingMagDeg s = Some brg ->
  positionFresh (best st) = true -> best_position (best st) = Some cur ->
  tick Math_sin Math_cos cfg env s
  = emit env
      (buildAPB (talker cfg)
         (nm (computeXteNmAndSide Math_sin Math_cos p0 cur brg))
         (side (computeXteNmAndSide Math_sin Math_cos p0 cur brg))
         (Some brg)
         match variationDeg (best st) with
         | Some va => Some (wrap360 (brg + va))
         | None => None
         end (Some (trackName s)))
      (set_lastStatus (Some st) s).
Proof.
  intros st E M A S0 B F P. unfold tick. fold st.
  cbn [enabled mode trackActive trackStart trackBearingMagDeg trackName
       set_lastStatus].
  rewrite E, M, A, S0, B, F, P. reflexivity.
Qed.

Lemma fresh_has_position (env : Env) (P : Paths) (gps : Q) :
  positionFresh (best (computeStatus env P gps)) = true ->
  exists cur, best_position (best (computeStatus env P gps)) = Some cur.
Proof.
  destruct (StatusFacts.computeStatus_position env P gps) as [F B].
  cbv zeta in F, B. rewrite F, B.
  destruct (readPosition env (position P)) as [p|]; [|discriminate].
  intros _. eexists. reflexivity.
Qed.

(** X18. In every state the plugin can reach, a tick hands a sentence to
    the sink exactly when output is enabled and either the mode is BOD with
    a heading target, or the mode is APB with an active track and a fresh
    position.  In BOD the sentence is the BOD sentence of the target, with
    the true heading [wrap360 (target + variation)] when the variation is
    known and an empty true field otherwise. *)
Theorem tick_emits_iff (o : Options) (s : State) (env : Env) :
  reachable Math_sin Math_cos o s ->
  let cfg := config_of o in
  let b := best (computeStatus env (PATHS cfg) (gpsStaleSeconds cfg)) in
  (snd (tick Math_sin Math_cos cfg env s) <> None <->
   enabled s = true /\
   ((mode s = BOD /\ targetMagDeg s <> None) \/
    (mode s = APB /\ trackActive s = true /\ positionFresh b = true))) /\
  (forall t, enabled s = true -> mode s = BOD -> targetMagDeg s = Some t ->
     snd (tick Math_sin Math_cos cfg env s)
     = Some (buildBOD (talker cfg)
               match variationDeg b with
               | Some va => Some (wrap360 (t + va))
               | None => None
               end (Some t) (Some "DEST") (Some "ORIG"))).
Proof.
  intros Rs cfg b.
  destruct (RunFacts.reachable_invariants Math_sin Math_cos o s Rs)
    as [I1 _].
  split.
  - split.
    + intros H.
      destruct (enabled s) eqn:E.
      2: { elim H. rewrite (CommandFacts.tick_silent Math_sin Math_cos cfg env s);
             [reflexivity | left; exact E]. }
      split; [reflexivity|].
      destruct (mode s) eqn:M.
      * left. split; [reflexivity|]. intros T. elim H.
        rewrite (CommandFacts.tick_silent Math_sin Math_cos cfg env s);
          [reflexivity | right; left; split; assumption].
      * right. split; [reflexivity|].
        destruct (trackActive s) eqn:A.
        2: { elim H.
             rewrite (CommandFacts.tick_silent Math_sin Math_cos cfg env s);
               [reflexivity | right; right; split; [exact M | left; exact A]]. }
        split; [reflexivity|].
        destruct (positionFresh b) eqn:F; [reflexivity|].
        elim H.
        rewrite (CommandFacts.tick_silent Math_sin Math_cos cfg env s);
          [reflexivity | right; right; split; [exact M | right; exact F]].
    + intros [E [[M T] | [M [A F]]]].
      * destruct (targetMagDeg s) as [t|] eqn:T'; [|elim T; reflexivity].
        rewrite (tick_BOD cfg env s t E M T'). discriminate.
      * destruct (I1 A) as [S0 B].
        destruct (trackStart s) as [p0|] eqn:S0'; [|elim S0; reflexivity].
        destruct (trackBearingMagDeg s) as [brg|] eqn:B';
          [|elim B; reflexivity].
        destruct (fresh_has_position env (PATHS cfg) (gpsStaleSeconds cfg) F)
          as [cur P].
        rewrite (tick_APB cfg env s p0 cur brg E M A S0' B' F P).
        discriminate.
  - intros t E M T. rewrite (tick_BOD cfg env s t E M T). reflexivity.
Qed.

(** X19. Whenever a tick hands a sentence to the sink, the sentence
    begins with [$] and ends with CRLF, the recorded last sentence is that
    sentence without the CRLF, and the recorded time is the time of the
    tick. *)
Theorem tick_records_what_it_emits (cfg : Config) (env : Env) (s : State)
    (x : string) :
  snd (tick Math_sin Math_cos cfg env s) = Some x ->
  exists y : string,
    x = y ++ CRLF /\ substring 0 1 y = "$" /\
    lastSentence (fst (tick Math_sin Math_cos cfg env s)) = Some y /\
    lastEmitTs (fst (tick Math_sin Math_cos cfg env s)) = Some (Date_now env).
Proof.
  assert (Em : forall body s0 x0,
             snd (emit env (addChecksum ("$" ++ body)) s0) = Some x0 ->
             exists y : string,
               x0 = y ++ CRLF /\ substring 0 1 y = "$" /\
               lastSentence (fst (emit env (addChecksum ("$" ++ body)) s0))
               = Some y /\
               lastEmitTs (fst (emit env (addChecksum ("$" ++ body)) s0))
               = Some (Date_now env)).
  { intros body s0 x0 H. cbn [emit snd] in H. injection H as <-.
    destruct (addChecksum_trim body) as [y [E [T [D _]]]].
    exists y. cbn [emit fst lastSentence lastEmitTs set_last].
    rewrite T. auto. }
  unfold tick.
  generalize (computeStatus env (PATHS cfg) (gpsStaleSeconds cfg)) as st.
  intros st.
  cbn [enabled mode targetMagDeg trackActive trackStart trackBearingMagDeg
       trackName set_lastStatus].
  destruct (enabled s); cbn [negb]; [|discriminate].
  destruct (mode s).
  - destruct (targetMagDeg s); [|discriminate]. cbv zeta. unfold buildBOD.
    apply Em.
  - destruct (trackActive s); [|discriminate].
    destruct (trackStart s); [|discriminate].
    destruct (trackBearingMagDeg s); [|discriminate].
    destruct (positionFresh (best st)); [|discriminate].
    destruct (best_position (best st)); [|discriminate].
    cbv zeta. unfold buildAPB. apply Em.
Qed.

Lemma angle_field_length (a : option Q) :
  String.length (angle_field a) = 0%nat \/
  String.length (angle_field a) = 5%nat.
Proof.
  destruct a as [d|]; [right | left; reflexivity].
  destruct (FormatFacts.fmtDeg_shape d) as [k [_ [_ [_ L5]]]]. exact L5.
Qed.

Lemma addChecksum_dollar_length (body : string) :
  String.length (addChecksum ("$" ++ body)) = (String.length body + 6)%nat.
Proof.
  destruct (addChecksum_trim body) as [y [E [_ [_ Ly]]]].
  rewrite E, length_app, Ly. change (String.length CRLF) with 2%nat. lia.
Qed.

(** X20. With the configuration that [start] makes of any options, every
    sentence a tick hands to the sink in a reachable state has 32 or 37
    characters (BOD, without and with the true heading) or 48 or 53 (APB),
    CRLF included: within the 82 characters of an NMEA 0183 sentence. *)
Theorem emitted_sentence_length (o : Options) (s : State) (env : Env)
    (x : string) :
  reachable Math_sin Math_cos o s ->
  snd (tick Math_sin Math_cos (config_of o) env s) = Some x ->
  (String.length x = 32 \/ String.length x = 37 \/
   String.length x = 48 \/ String.length x = 53)%nat /\
  (String.length x <= 82)%nat.
Proof.
  intros Rs H.
  destruct (RunFacts.reachable_invariants Math_sin Math_cos o s Rs)
    as [_ [_ [_ Nm]]].
  assert (Tk : String.length (talker (config_of o)) = 2%nat).
  { cbn [config_of talker].
    destruct (FormatFacts.sanitizeTalker_shape
                (Some (str_or (o_talker o) "II"))) as [a [b [E _]]].
    rewrite E. reflexivity. }
  assert (G : (String.length x = 32 \/ String.length x = 37 \/
               String.length x = 48 \/ String.length x = 53)%nat);
    [|split; [exact G | lia]].
  revert H Tk. generalize (config_of o) as cfg. intros cfg H Tk.
  revert H. unfold tick.
  generalize (computeStatus env (PATHS cfg) (gpsStaleSeconds cfg)) as st.
  intros st.
  cbn [enabled mode targetMagDeg trackActive trackStart trackBearingMagDeg
       trackName set_lastStatus].
  destruct (enabled s); cbn [negb]; [|discriminate].
  destruct (mode s).
  - destruct (targetMagDeg s) as [t|]; [|discriminate]. cbv zeta.
    cbn [emit snd]. intros H. injection H as <-. unfold buildBOD.
    rewrite addChecksum_dollar_length, !length_app, Tk.
    destruct (FormatFacts.fmtDeg_shape t) as [k [_ [_ [_ L1]]]]. rewrite L1.
    match goal with
    | |- context [String.length (match ?v with
                                  | Some d => fmtDeg d
                                  | None => "" end)] =>
        fold (angle_field v);
        destruct (angle_field_length v) as [L0|L0]; rewrite L0
    end; cbn [String.length orEmpty]; lia.
  - destruct (trackActive s); [|discriminate].
    destruct (trackStart s) as [p0|]; [|discriminate].
    destruct (trackBearingMagDeg s) as [brg|]; [|discriminate].
    destruct (positionFresh (best st)); [|discriminate].
    destruct (best_position (best st)) as [cur|]; [|discriminate].
    cbv zeta. cbn [emit snd]. intros H. injection H as <-. unfold buildAPB.
    rewrite addChecksum_dollar_length, !length_app, Tk, Nm.
    match goal with
    | |- context [String.length (fmtXteNm ?v)] =>
        destruct (FormatFacts.fmtXteNm_shape v) as [_ [L4 _]]; rewrite L4
    end.
    destruct (FormatFacts.fmtDeg_shape brg) as [k [_ [_ [_ L1]]]]. rewrite L1.
    match goal with
    | |- context [String.length (match ?v with
                                  | Some d => fmtDeg d
                                  | None => "" end)] =>
        fold (angle_field v);
        destruct (angle_field_length v) as [L0|L0]; rewrite L0
    end;
      match goal with
      | |- context [match ?x with L => _ | R => _ end] => destruct x
      end; cbn [String.length orEmpty]; lia.
Qed.

Lemma cmd_stays_disabled (cfg : Config) (env : Env) (c : string)
    (n : number) (s : State) :
  (c =? "enable") = false -> enabled s = false ->
  enabled (cmd cfg env c n s) = false.
Proof.
  intros C E. rewrite StateFacts.cmd_cases, C.
  generalize (computeStatus env (PATHS cfg) (gpsStaleSeconds cfg)) as st.
  intros st.
  repeat match goal with
         | |- context [if String.eqb c ?x then _ else _] =>
             destruct (String.eqb c x)
         end; try exact E; try reflexivity.
  - unfold do_hold_heading. destruct (headingMagDeg _); exact E.
  - destruct n; exact E.
  - unfold do_hold_rhumb.
    destruct (best_position _); [|exact E].
    destruct (positionFresh _); [|exact E].
    destruct (cogMagDeg _); [exact E|].
    destruct (headingMagDeg _); exact E.
  - unfold do_adjust. destruct (Qeq_bool _ _); [exact E|].
    unfold adjust_track, adjust_heading.
    destruct (mode s) eqn:M, (targetMagDeg s) eqn:T, (trackActive s) eqn:A,
             (trackBearingMagDeg s) eqn:B;
      cbn [mode trackActive trackBearingMagDeg set_targetMagDeg];
      rewrite ?M, ?A, ?B; exact E.
Qed.

(** X21. While output is disabled nothing reaches the sink: from a state
    with the enabled flag off, a run of ticks and of requests among which
    there is no [enable] emits no sentence at all. *)
Theorem disabled_run_is_silent (cfg : Config) (es : list Event) (s : State) :
  enabled s = false ->
  forallb (fun e => negb (is_enable e)) es = true ->
  outputs Math_sin Math_cos cfg s es = [].
Proof.
  revert s. induction es as [|e es IH]; intros s E H; [reflexivity|].
  cbn [forallb] in H. apply andb_true_iff in H. destruct H as [He H].
  cbn [outputs]. destruct e as [env c n|env].
  - cbn [app step]. apply IH; [|exact H].
    apply cmd_stays_disabled; [|exact E].
    cbn [is_enable] in He. now apply negb_true_iff in He.
  - rewrite (CommandFacts.tick_silent Math_sin Math_cos cfg env s)
      by (left; exact E).
    cbn [snd app step]. apply IH; [|exact H].
    rewrite (CommandFacts.tick_silent Math_sin Math_cos cfg env s)
      by (left; exact E).
    exact E.
Qed.

End Ticks.

End TickFacts.

(** Witnesses of the tick properties. *)
Module TickWitnesses.

Import HtsBodApb.

Lemma tracking_reachable :
  reachable Sample.sin0 Sample.cos0 Sample.no_options Sample.tracking.
Proof. apply reach_step, reach_step, reach_start. Qed.

(** X18, while tracking with a fresh position. *)
Lemma tick_emits_iff_witness :
  snd (tick Sample.sin0 Sample.cos0 Sample.cfg0 Sample.env_underway
         Sample.tracking) <> None.
Proof.
  apply (TickFacts.tick_emits_iff Sample.sin0 Sample.cos0 Sample.no_options
           Sample.tracking Sample.env_underway tracking_reachable).
  split; [reflexivity|]. right.
  split; [reflexivity | split; [reflexivity | vm_compute; reflexivity]].
Defined.

(** X19, while tracking with a fresh position. *)
Lemma tick_records_what_it_emits_witness :
  exists x y : string,
    snd (tick Sample.sin0 Sample.cos0 Sample.cfg0 Sample.env_underway
           Sample.tracking) = Some x /\
    x = y ++ CRLF /\
    lastSentence (fst (tick Sample.sin0 Sample.cos0 Sample.cfg0
                         Sample.env_underway Sample.tracking)) = Some y.
Proof.
  assert (E : snd (tick Sample.sin0 Sample.cos0 Sample.cfg0
                     Sample.env_underway Sample.tracking)
              = Some ("$IIAPB,A,A,0.00,R,N,A,A,,T,090.0,M,RHUMB,,,*03"
                      ++ CRLF))
    by (vm_compute; reflexivity).
  destruct (TickFacts.tick_records_what_it_emits Sample.sin0 Sample.cos0
              Sample.cfg0 Sample.env_underway Sample.tracking _ E)
    as [y [X [_ [Ls _]]]].
  eexists. exists y. split; [exact E | split; [exact X | exact Ls]].
Defined.

(** X20, while tracking with a fresh position: 48 characters. *)
Lemma emitted_sentence_length_witness :
  exists x : string,
    snd (tick Sample.sin0 Sample.cos0 Sample.cfg0 Sample.env_underway
           Sample.tracking) = Some x /\
    (String.length x <= 82)%nat.
Proof.
  assert (E : snd (tick Sample.sin0 Sample.cos0 Sample.cfg0
                     Sample.env_underway Sample.tracking)
              = Some ("$IIAPB,A,A,0.00,R,N,A,A,,T,090.0,M,RHUMB,,,*03"
                      ++ CRLF))
    by (vm_compute; reflexivity).
  eexists. split; [exact E|].
  apply (TickFacts.emitted_sentence_length Sample.sin0 Sample.cos0
           Sample.no_options Sample.tracking Sample.env_underway _
           tracking_reachable E).
Defined.

(** X21, from the start: a track is captured and three ticks pass, but
    output was never enabled. *)
Lemma disabled_run_is_silent_witness :
  outputs Sample.sin0 Sample.cos0 Sample.cfg0
    (start Sample.no_options initial)
    [Command Sample.env_underway "hold_rhumb" NaN;
     Tick Sample.env_underway; Tick Sample.env_underway;
     Command Sample.env_underway "set_heading" (Num 90);
     Tick Sample.env_underway] = [].
Proof.
  apply TickFacts.disabled_run_is_silent; reflexivity.
Defined.

End TickWitnesses.

(** ** Cross-track distance, further *)

Module GeometryFacts.

Import HtsBodApb.

Section Trigonometry.

Variable Math_sin : Q -> Q.
Variable Math_cos : Q -> Q.

Lemma xte_m_at_start (p q : LatLon) (brg : Q) :
  lat q == lat p -> lon q == lon p ->
  xte_m Math_sin Math_cos p q brg == 0.
Proof.
  intros A B. unfold xte_m, degToRad. cbv zeta. rewrite A, B. field.
Qed.

Lemma xte_m_mirror (p c c' : LatLon) (brg : Q) :
  lat c' == 2 * lat p - lat c -> lon c' == 2 * lon p - lon c ->
  xte_m Math_sin Math_cos p c' brg == - xte_m Math_sin Math_cos p c brg.
Proof.
  intros A B. unfold xte_m, degToRad. cbv zeta. rewrite A, B. field.
Qed.

Lemma nm_of_zero (p q : LatLon) (brg : Q) :
  xte_m Math_sin Math_cos p q brg == 0 ->
  nm (computeXteNmAndSide Math_sin Math_cos p q brg) == 0 /\
  side (computeXteNmAndSide Math_sin Math_cos p q brg) = R.
Proof.
  intros Z. unfold computeXteNmAndSide. cbv zeta. cbn [nm side]. split.
  - rewrite (round2_comp _ 0); [reflexivity|].
    rewrite Z. reflexivity.
  - assert (H : Qle_bool 0 (xte_m Math_sin Math_cos p q brg) = true)
      by (apply Qle_bool_iff; rewrite Z; discriminate).
    rewrite H. reflexivity.
Qed.

(** X22. At the start point the cross-track distance is 0 on side [R],
    whatever the bearing.  A position mirrored in the start point is as far
    from the track as the original, and on the other side unless both are
    on the track. *)
Theorem cross_track_origin_and_mirror (p c c' : LatLon) (brg : Q) :
  let at_start := computeXteNmAndSide Math_sin Math_cos p p brg in
  let x := computeXteNmAndSide Math_sin Math_cos p c brg in
  let x' := computeXteNmAndSide Math_sin Math_cos p c' brg in
  (nm at_start == 0 /\ side at_start = R) /\
  (lat c' == 2 * lat p - lat c -> lon c' == 2 * lon p - lon c ->
   nm x' == nm x /\
   (side x = L -> side x' = R) /\
   (side x = R -> side x' = R -> nm x == 0)).
Proof.
  intros at_start x x'. split.
  - apply nm_of_zero, xte_m_at_start; reflexivity.
  - intros A B. pose proof (xte_m_mirror p c c' brg A B) as M.
    unfold x, x', computeXteNmAndSide. cbv zeta. cbn [nm side].
    set (m := xte_m Math_sin Math_cos p c brg) in *.
    set (m' := xte_m Math_sin Math_cos p c' brg) in *.
    split; [|split].
    + apply round2_comp. rewrite M, Qabs_opp. reflexivity.
    + destruct (Qle_bool 0 m) eqn:E; [discriminate|intros _].
      assert (H : Qle_bool 0 m' = true).
      { apply Qle_bool_iff. rewrite M.
        destruct (Qlt_le_dec m 0) as [N|N]; [lra|].
        apply Qle_bool_iff in N. congruence. }
      rewrite H. reflexivity.
    + destruct (Qle_bool 0 m) eqn:E; [intros _|discriminate].
      destruct (Qle_bool 0 m') eqn:E'; [intros _|discriminate].
      apply Qle_bool_iff in E, E'. rewrite M in E'.
      assert (Z : m == 0) by lra.
      rewrite (round2_comp _ 0); [reflexivity|].
      rewrite Z. reflexivity.
Qed.

(** X23. Right after [hold_rhumb] has captured a track, a tick with the
    same readings and output enabled reports no cross-track error: the APB
    sentence carries [0.00] and [R], the bearing just captured as the
    magnetic heading to steer, and the true one when the variation is
    known. *)
Theorem first_tick_after_hold_rhumb (cfg : Config) (env : Env) (n : number)
    (s : State) (p : LatLon) (brg : Q) :
  let b := best (computeStatus env (PATHS cfg) (gpsStaleSeconds cfg)) in
  enabled s = true ->
  best_position b = Some p ->
  positionFresh b = true ->
  match cogMagDeg b with Some x => Some x | None => headingMagDeg b end
  = Some brg ->
  snd (tick Math_sin Math_cos cfg env (cmd cfg env "hold_rhumb" n s))
  = Some (addChecksum
            ("$" ++ talker cfg ++ "APB,A,A,0.00,R,N,A,A,"
             ++ angle_field
                  match variationDeg b with
                  | Some va => Some (wrap360 (wrap360 brg + va))
                  | None => None
                  end
             ++ ",T," ++ fmtDeg (wrap360 brg) ++ ",M," ++ trackName s
             ++ ",,,")).
Proof.
  intros b E P F B.
  assert (C : cmd cfg env "hold_rhumb" n s
              = set_targetMagDeg None
                  (set_mode APB
                     (set_trackActive true
                        (set_trackBearingTrueDeg
                           match variationDeg b with
                           | Some va => Some (wrap360 (wrap360 brg + va))
                           | None => None
                           end
                           (set_trackBearingMagDeg (Some (wrap360 brg))
                              (set_trackStart
                                 (Some {| lat := lat p; lon := lon p |})
                                 s)))))).
  { rewrite CommandFacts.cmd_hold_rhumb. unfold do_hold_rhumb. fold b.
    rewrite P, F. cbv zeta. rewrite B. reflexivity. }
  rewrite C.
  rewrite (TickFacts.tick_APB Math_sin Math_cos cfg env _
             {| lat := lat p; lon := lon p |} p (wrap360 brg));
    try reflexivity; try assumption.
  cbn [emit snd trackName set_targetMagDeg set_mode set_trackActive
       set_trackBearingTrueDeg set_trackBearingMagDeg set_trackStart].
  fold b. f_equal. unfold buildAPB. cbv zeta.
  destruct (nm_of_zero {| lat := lat p; lon := lon p |} p (wrap360 brg))
    as [N0 S0].
  { apply xte_m_at_start; reflexivity. }
  rewrite S0.
  destruct (FormatFacts.fmtXteNm_shape
              (nm (computeXteNmAndSide Math_sin Math_cos
                     {| lat := lat p; lon := lon p |} p (wrap360 brg))))
    as [_ [_ [Z _]]].
  rewrite Z by (rewrite N0; discriminate).
  unfold angle_field. cbn [append orEmpty]. reflexivity.
Qed.

End Trigonometry.

(** X22, with a position a hundredth of a degree east of a track due
    north and its mirror image: the first is to the left under the
    stand-in trigonometry, the second to the right. *)
Lemma cross_track_origin_and_mirror_witness :
  let p := {| lat := 0; lon := 0 |} in
  let c := {| lat := 0; lon := 1 # 100 |} in
  let c' := {| lat := 0; lon := - (1 # 100) |} in
  nm (computeXteNmAndSide (fun _ => 1) (fun _ => 1) p c' 0)
  == nm (computeXteNmAndSide (fun _ => 1) (fun _ => 1) p c 0) /\
  side (computeXteNmAndSide (fun _ => 1) (fun _ => 1) p c' 0) = R.
Proof.
  intros p c c'.
  destruct (cross_track_origin_and_mirror (fun _ => 1) (fun _ => 1)
              p c c' 0) as [_ M].
  destruct M as [A [B _]]; try reflexivity.
  split; [exact A | apply B; vm_compute; reflexivity].
Defined.

(** X23, with the sample provider. *)
Lemma first_tick_after_hold_rhumb_witness :
  snd (tick Sample.sin0 Sample.cos0 Sample.cfg0 Sample.env_underway
         (cmd Sample.cfg0 Sample.env_underway "hold_rhumb" NaN
            (cmd Sample.cfg0 Sample.env_underway "enable" NaN initial)))
  = Some ("$IIAPB,A,A,0.00,R,N,A,A,,T,090.0,M,RHUMB,,,*03" ++ CRLF).
Proof.
  rewrite (first_tick_after_hold_rhumb Sample.sin0 Sample.cos0 Sample.cfg0
             Sample.env_underway NaN
             (cmd Sample.cfg0 Sample.env_underway "enable" NaN initial)
             {| lat := 50; lon := 10 |} (900 # 10));
    vm_compute; reflexivity.
Defined.

End GeometryFacts.

(** ** The BOD-only plugin and the two plugins together *)

Module BodOnlyFacts.

Import HtsBodApb.


Lemma substring_length_le (n : nat) (s : string) :
  (String.length (substring 0 n s) <= n)%nat.
Proof.
  revert s. induction n as [|n IH]; intros [|c s]; simpl; try lia.
  specialize (IH s). lia.
Qed.








Lemma str_or_not_empty (x : option string) (d : string) :
  d <> "" -> str_or x d <> "".
Proof.
  intros D. unfold str_or. destruct x as [v|]; [|exact D].
  destruct (String.eqb_spec v ""); assumption.
Qed.

Lemma num_or_not_zero (x : option Q) (d : Q) :
  ~ d == 0 -> ~ num_or x d == 0.
Proof.
  intros D. unfold num_or. destruct x as [q|]; [|exact D].
  destruct (Qeq_bool q 0) eqn:E; [exact D|].
  now apply Qeq_bool_neq.
Qed.

Lemma period_bounds (r : Q) :
  1 # 5 <= r <= 10 ->
  100 <= Qmax 100 (Math_round (1000 / r)) <= 5000.
Proof.
  intros [R0 R1]. split; [apply Q.le_max_l|].
  apply Q.max_lub; [discriminate|].
  assert (D : 1000 / r <= 5000).
  { apply Qle_shift_div_r; lra. }
  destruct (Math_round_bounds (1000 / r) 0 5000) as [_ U].
  - change (inject_Z 0) with 0.
    apply Qle_shift_div_l; lra.
  - exact D.
  - exact U.
Qed.

(** X26. What [start] makes of any options, in both plugins: the talker
    has two characters, the timer period is at least 100 ms, is 1000 ms
    when no rate is given and lies between 100 and 5000 ms for a rate
    between 0.2 and 10 Hz, the staleness threshold is never 0, no path is
    the empty string, and the destination and origin of the BOD-only
    plugin have at most 8 characters.  [start] itself changes the enabled
    flag and the mode only: a heading target or a track from before a
    restart is still there. *)
Theorem start_configuration (o : Options) (ob : HtsBod.Options) (s : State)
    (sb : HtsBod.State) :
  let cfg := config_of o in
  let cfgb := HtsBod.config_of ob in
  (String.length (talker cfg) = 2%nat /\
   String.length (HtsBod.talker cfgb) = 2%nat) /\
  (100 <= periodMs cfg /\ 100 <= HtsBod.periodMs ob) /\
  (o_rateHz o = None -> periodMs cfg == 1000) /\
  (forall r, o_rateHz o = Some r -> 1 # 5 <= r <= 10 ->
             100 <= periodMs cfg <= 5000) /\
  ~ gpsStaleSeconds cfg == 0 /\
  (position (PATHS cfg) <> "" /\ cogMag (PATHS cfg) <> "" /\
   cogTrue (PATHS cfg) <> "" /\ hdgMag (PATHS cfg) <> "" /\
   hdgTrue (PATHS cfg) <> "" /\ variation (PATHS cfg) <> "" /\
   HtsBod.headingPath cfgb <> "" /\ HtsBod.variationPath cfgb <> "") /\
  ((String.length (HtsBod.destinationId cfgb) <= 8)%nat /\
   (String.length (HtsBod.originId cfgb) <= 8)%nat) /\
  (targetMagDeg (start o s) = targetMagDeg s /\
   trackActive (start o s) = trackActive s /\
   trackStart (start o s) = trackStart s /\
   trackBearingMagDeg (start o s) = trackBearingMagDeg s /\
   trackBearingTrueDeg (start o s) = trackBearingTrueDeg s /\
   enabled (start o s) = o_enabled o /\
   HtsBod.targetMagDeg (HtsBod.start ob sb) = HtsBod.targetMagDeg sb /\
   HtsBod.enabled (HtsBod.start ob sb) = HtsBod.o_enabled ob).
Proof.
  intros cfg cfgb.
  split; [|split; [|split; [|split; [|split; [|split; [|split]]]]]].
  - split.
    + destruct (FormatFacts.sanitizeTalker_shape
                  (Some (str_or (o_talker o) "II"))) as [a [b [E _]]].
      unfold cfg. cbn [config_of talker]. rewrite E. reflexivity.
    + destruct (FormatFacts.sanitizeTalker_shape
                  (Some (str_or (HtsBod.o_talker ob) "II"))) as [a [b [E _]]].
      unfold cfgb. cbn [HtsBod.config_of HtsBod.talker]. rewrite E.
      reflexivity.
  - split; apply Q.le_max_l.
  - intros H. unfold cfg. cbn [config_of periodMs]. rewrite H. reflexivity.
  - intros r H R. unfold cfg. cbn [config_of periodMs]. rewrite H.
    cbn [num_or].
    assert (Z : Qeq_bool r 0 = false).
    { destruct (Qeq_bool r 0) eqn:Z; [|reflexivity].
      apply Qeq_bool_iff in Z. exfalso. lra. }
    rewrite Z. apply period_bounds, R.
  - apply num_or_not_zero. discriminate.
  - repeat split; apply str_or_not_empty; discriminate.
  - split; apply substring_length_le.
  - repeat split.
Qed.

(** X26, with a rate of 2 Hz: a period of 500 ms. *)
Lemma start_configuration_witness :
  let o := {| o_enabled := true; o_defaultMode := Some "APB";
              o_rateHz := Some 2; o_talker := Some "gp";
              o_gpsStaleSeconds := Some 0;
              o_path_position := Some ""; o_path_cogMag := None;
              o_path_cogTrue := None; o_path_hdgMag := None;
              o_path_hdgTrue := None; o_path_variation := None |} in
  100 <= periodMs (config_of o) <= 5000 /\
  periodMs (config_of o) == 500 /\
  gpsStaleSeconds (config_of o) == 5 /\
  position (PATHS (config_of o)) = "navigation.position".
Proof.
  intros o.
  destruct (start_configuration o Sample.bod_no_options initial
              HtsBod.initial) as [_ [_ [_ [P _]]]].
  split; [|split; [|split]]; try reflexivity.
  apply (P 2); [reflexivity | split; discriminate].
Defined.

End BodOnlyFacts.
